(** * zodfn: a shallow embedding of [index.js] and its verified properties

    The library wraps a function with argument and return-value validation
    (through duck-typed Zod schemas) and with test instrumentation (mock,
    spy, error handler).  The embedding follows [index.js] function by
    function:

    - JavaScript data is the inductive [value]; thrown objects are [exn];
      what a call expression evaluates to is [ret], a plain value or a
      promise, and a promise is given by the way it settles;
    - the mutable objects of the program (builder instances with their
      [_schemas] record, the [options] record of every materialized
      callable) live in a store that every operation threads, so aliasing
      between builders is visible;
    - user supplied functions (implementation, mock, spy, error handler,
      schema parsers) are functions of the embedding; each invocation is
      recorded in the log of the store, so that the order of the pipeline
      stages can be stated;
    - an [async] body is run to its settlement: awaiting a promise that
      never settles suspends the body for ever ([Hang]);
    - [JSON.parse] is a parameter.

    The file has the definitions first (data, error normalisation, store,
    engine, instrumentation, builder, sample data, vocabulary of the
    statements), then the properties. *)

From Stdlib Require Import ZArith String Ascii Decimal DecimalString.
From stdpp Require Import base list.

Local Open Scope string_scope.
Local Set Warnings "-register-all".

(** ** JavaScript data *)

Module Js.

(** Numbers are restricted to integers: argument positions, counters and path
    indices are the only numbers the library itself inspects. *)
Inductive value :=
| VUndefined
| VNull
| VBool (b : bool)
| VNumber (n : Z)
| VString (s : string)
| VArray (items : list value)
| VObject (props : list (string * value)).

(** Thrown objects: the library's own error class, or any other [Error]
    with its [name] and [message]. *)
Inductive exn :=
| ZodFnError (message : string)
| JsError (name : string) (message : string).

Definition message (e : exn) : string :=
  match e with
  | ZodFnError m => m
  | JsError _ m => m
  end.

(** A promise, by its settlement. *)
Inductive promise :=
| Fulfilled (v : value)
| Rejected (e : exn)
| Pending.

(** The value of a call expression; [Promise] is the case
    [ret instanceof Promise]. *)
Inductive ret :=
| Plain (v : value)
| Promise (p : promise).

(** A completed call: it returned, or it threw. *)
Inductive completion :=
| Return (r : ret)
| Throw (e : exn).

(** A value that may be a function, as [typeof x === "function"] tells. *)
Inductive dyn (F : Type) :=
| Data (v : value)
| Fun (f : F).
Arguments Data {F} v.
Arguments Fun {F} f.

Definition is_function {F} (d : dyn F) : bool :=
  match d with Fun _ => true | Data _ => false end.

Definition is_undefined {F} (d : dyn F) : bool :=
  match d with Data VUndefined => true | _ => false end.

(** ToBoolean. *)
Definition truthy (v : value) : bool :=
  match v with
  | VUndefined | VNull => false
  | VBool b => b
  | VNumber n => negb (n =? 0)%Z
  | VString s => negb (String.eqb s "")
  | VArray _ | VObject _ => true
  end.

(** Decimal rendering of integers: the rendering of a number by ToString
    when it is a safe integer (of magnitude at most 2^53 - 1).  Numbers
    beyond print rounded, or in exponent form from 10^21 on, which is not
    modelled: a statement that depends on the digits of a number printed
    assumes [safe_integers]. *)
Definition nat_to_string (n : nat) : string :=
  NilEmpty.string_of_uint (Nat.to_uint n).

Definition Z_to_string (n : Z) : string :=
  NilEmpty.string_of_int (Z.to_int n).

(** ToString; an array renders as its elements joined by a comma, where
    [undefined] and [null] elements render as the empty string. *)
Fixpoint ToString (v : value) : string :=
  match v with
  | VUndefined => "undefined"
  | VNull => "null"
  | VBool true => "true"
  | VBool false => "false"
  | VNumber n => Z_to_string n
  | VString s => s
  | VArray items =>
      (fix commas (l : list value) : string :=
         match l with
         | [] => ""
         | x :: r =>
             let sx := match x with
                       | VUndefined | VNull => ""
                       | _ => ToString x
                       end in
             match r with
             | [] => sx
             | _ => sx ++ "," ++ commas r
             end
         end) items
  | VObject _ => "[object Object]"
  end.

(** [Array.prototype.join]. *)
Fixpoint join (sep : string) (l : list value) : string :=
  match l with
  | [] => ""
  | x :: r =>
      let sx := match x with
                | VUndefined | VNull => ""
                | _ => ToString x
                end in
      match r with
      | [] => sx
      | _ => sx ++ sep ++ join sep r
      end
  end.

(** Property read [o.key] on data: own properties of plain objects; other
    data has no such member (the keys read by the library are [message],
    [path] and [parseAsync], none of which a prototype provides). *)
Fixpoint lookup_prop (key : string) (props : list (string * value)) : value :=
  match props with
  | [] => VUndefined
  | (k, v) :: rest => if String.eqb k key then v else lookup_prop key rest
  end.

Definition get (key : string) (v : value) : value :=
  match v with
  | VObject props => lookup_prop key props
  | _ => VUndefined
  end.

(** [s.startsWith(p)] and [String.prototype.replace] with a string pattern:
    the first occurrence only. *)
Fixpoint starts_with (p s : string) : bool :=
  match p, s with
  | EmptyString, _ => true
  | String a p', String b s' => Ascii.eqb a b && starts_with p' s'
  | String _ _, EmptyString => false
  end.

Fixpoint drop_chars (n : nat) (s : string) : string :=
  match n, s with
  | O, _ => s
  | S n', String _ s' => drop_chars n' s'
  | S _, EmptyString => EmptyString
  end.

Fixpoint replace (pat rep s : string) : string :=
  if starts_with pat s then rep ++ drop_chars (String.length pat) s
  else match s with
       | EmptyString => EmptyString
       | String c s' => String c (replace pat rep s')
       end.

End Js.
Import Js.

(** ** Error normalisation ([getOrdinalSuffix], [argValidation],
    [returnValidation]) *)

Definition getOrdinalSuffix (num : nat) : string :=
  let j := num mod 10 in
  let k := num mod 100 in
  if Nat.eqb j 1 && negb (Nat.eqb k 11) then "st"
  else if Nat.eqb j 2 && negb (Nat.eqb k 12) then "nd"
  else if Nat.eqb j 3 && negb (Nat.eqb k 13) then "rd"
  else "th".

(** ** Schemas

    A schema is duck-typed: any JavaScript value can be passed where one is
    expected.  Such a value is either data, or an object (or function) with
    a [parse] and a [parseAsync] member, each of which may itself be data
    ([Data VUndefined] when the member is absent) or a function.

    [schema.parse(arg)] returns the parsed value or throws;
    [schema.parseAsync(arg)] is given by the settlement of what it returns
    (a synchronous throw inside the awaiting [try] is a rejection). *)

Definition parse_fn := value -> value + exn.
Definition parseAsync_fn := value -> promise.

Inductive schema :=
| CData (v : value)
| CObject (parse : dyn parse_fn) (parseAsync : dyn parseAsync_fn).

(** [schema?.parseAsync] *)
Definition get_parseAsync (schema : schema) : dyn parseAsync_fn :=
  match schema with
  | CData v => Data (get "parseAsync" v)
  | CObject _ pa => pa
  end.

(** [schema === undefined] and [if (schema)] *)
Definition schema_is_undefined (schema : schema) : bool :=
  match schema with CData VUndefined => true | _ => false end.

Definition schema_truthy (schema : schema) : bool :=
  match schema with CData v => truthy v | CObject _ _ => true end.

(** The [TypeError] of calling a member that is not a function, with the
    message V8 gives it. *)
Definition not_a_function (member : string) (schema : schema) : exn :=
  match schema with
  | CData VUndefined =>
      JsError "TypeError" ("Cannot read properties of undefined (reading '" ++ member ++ "')")
  | CData VNull =>
      JsError "TypeError" ("Cannot read properties of null (reading '" ++ member ++ "')")
  | _ => JsError "TypeError" ("schema." ++ member ++ " is not a function")
  end.

(** [schema.parse(arg)] *)
Definition call_parse (schema : schema) (arg : value) : value + exn :=
  match schema with
  | CObject (Fun f) _ => f arg
  | _ => inr (not_a_function "parse" schema)
  end.

(** [await schema.parseAsync(arg)] inside [try] *)
Definition call_parseAsync (schema : schema) (arg : value) : promise :=
  match schema with
  | CObject _ (Fun f) => f arg
  | _ => Rejected (not_a_function "parseAsync" schema)
  end.

(** How a computation ends: with a value, with a thrown error, or never
    (an [await] on a promise that does not settle). *)
Inductive outcome (A : Type) :=
| Ok (a : A)
| Raise (e : exn)
| Hang.
Arguments Ok {A} a.
Arguments Raise {A} e.
Arguments Hang {A}.

Definition awaited (p : promise) : outcome value :=
  match p with
  | Fulfilled v => Ok v
  | Rejected e => Raise e
  | Pending => Hang
  end.

Section Validation.

(** [JSON.parse]: [None] when it throws a [SyntaxError]. *)
Variable JSON_parse : string -> option value.

(** [json?.[0]] on a value known to be an array *)
Definition first_issue (json : value) : value :=
  match json with
  | VArray (x :: _) => x
  | _ => VUndefined
  end.

Definition isArray (json : value) : bool :=
  match json with VArray _ => true | _ => false end.

(** The two [throwError] closures of [argValidation] and [returnValidation]
    are the same function up to the label of what was validated:
    [`${position}${getOrdinalSuffix(position)} argument`] in the former,
    [return value] in the latter.  The result is the error thrown. *)
Definition throwError (label : string) (error : exn) : exn :=
  match JSON_parse (message error) with
  | None => ZodFnError (replace "parseAsync()" "createAsync()" (message error))
  | Some json =>
      if isArray json
         && truthy (get "message" (first_issue json))
         && truthy (get "path" (first_issue json))
      then
        match get "path" (first_issue json) with
        | VArray segments =>
            let path := join "." segments in
            let message := ToString (get "message" (first_issue json)) in
            let errMessage := "Validation failed for " ++ label in
            let errMessage :=
              if negb (String.eqb path "") then errMessage ++ " - Path: " ++ path
              else errMessage in
            let errMessage := errMessage ++ " - " ++ message in
            ZodFnError (replace "parseAsync()" "createAsync()" errMessage)
        | _ => JsError "TypeError" "json[0].path.join is not a function"
        end
      else ZodFnError (replace "parseAsync()" "createAsync()" (message error))
  end.

Definition arg_label (position : nat) : string :=
  nat_to_string position ++ getOrdinalSuffix position ++ " argument".

Definition return_label : string := "return value".

(** [argValidation(arg, position, schema, isAsync)]; with [isAsync] the
    result is the settlement of the promise returned, which every caller
    awaits. *)
Definition argValidation (arg : value) (position : nat) (schema : schema)
    (isAsync : bool) : outcome value :=
  if isAsync then
    match call_parseAsync schema arg with
    | Fulfilled v => Ok v
    | Rejected error => Raise (throwError (arg_label position) error)
    | Pending => Hang
    end
  else
    match call_parse schema arg with
    | inl v => Ok v
    | inr error => Raise (throwError (arg_label position) error)
    end.

Definition returnValidation (arg : value) (schema : schema) (isAsync : bool)
    : outcome value :=
  if schema_is_undefined schema then Ok arg
  else if isAsync then
    match call_parseAsync schema arg with
    | Fulfilled v => Ok v
    | Rejected error => Raise (throwError return_label error)
    | Pending => Hang
    end
  else
    match call_parse schema arg with
    | inl v => Ok v
    | inr error => Raise (throwError return_label error)
    end.

End Validation.

(** ** The store: builder objects and execution options *)

Definition loc := nat.

(** The [_schemas] record of a builder instance. *)
Record schemas := { args : list schema; return_ : schema }.

(** A builder object is [zfnBuilder] itself, which holds the methods and no
    [_schemas], or an object made by [Object.create] with its own
    [_schemas] property. *)
Inductive builder_obj :=
| Root
| Instance (proto : loc) (_schemas : schemas).

(** ["_schemas" in obj] *)
Definition has_schemas (obj : builder_obj) : bool :=
  match obj with Root => false | Instance _ _ => true end.

Definition impl_fn := list value -> completion.
Definition spy_fn := list value -> value -> nat -> completion.
Definition onError_fn := exn -> list value -> completion.

(** The [options] record of [getExecFn]. *)
Record options := {
  execFn : impl_fn;
  spyFn : spy_fn;
  spyFnCount : nat;
  onErrorFn : onError_fn
}.

(** What the pipeline does that can be observed from outside, in order. *)
Inductive event :=
| ParseArg (position : nat) (arg : value)
| Exec (args : list value)
| OnError (error : exn) (args : list value)
| ValidateReturn (arg : value)
| Spy (args : list value) (ret : value) (count : nat)
| CatchIgnored (p : promise).

Record store := {
  builders : list builder_obj;
  callables : list options;
  log : list event
}.

(** [zfnBuilder] is the first object of every store. *)
Definition zfn : loc := 0.

Definition initial : store :=
  {| builders := [Root]; callables := []; log := [] |}.

(** ** Computations over the store *)

Definition M (A : Type) : Type := store -> outcome A * store.

Definition ok {A} (a : A) : M A := fun s => (Ok a, s).
Definition raise {A} (e : exn) : M A := fun s => (Raise e, s).

Definition bind {A B} (m : M A) (k : A -> M B) : M B :=
  fun s =>
    match m s with
    | (Ok a, s') => k a s'
    | (Raise e, s') => (Raise e, s')
    | (Hang, s') => (Hang, s')
    end.

Notation "'let!' x ':=' m 'in' k" := (bind m (fun x => k))
  (at level 10, x pattern, m at level 100, k at level 200).
Notation "m ';;' k" := (bind m (fun _ => k))
  (at level 100, k at level 200, right associativity).

(** [try { m } catch (error) { h error }] *)
Definition try_catch {A} (m : M A) (h : exn -> M A) : M A :=
  fun s =>
    match m s with
    | (Raise e, s') => h e s'
    | r => r
    end.

(** [(async () => { m })()]: the body runs to its settlement and the call
    evaluates to the promise. *)
Definition async_ (m : M value) : M ret :=
  fun s =>
    match m s with
    | (Ok v, s') => (Ok (Promise (Fulfilled v)), s')
    | (Raise e, s') => (Ok (Promise (Rejected e)), s')
    | (Hang, s') => (Ok (Promise Pending), s')
    end.

Definition lift {A} (o : outcome A) : M A := fun s => (o, s).

(** [await p] *)
Definition await (p : promise) : M value := lift (awaited p).

(** [if (r instanceof Promise) r = await r] *)
Definition settle (r : ret) : M value :=
  match r with
  | Promise p => await p
  | Plain v => ok v
  end.

(** Evaluating a call of a user function. *)
Definition complete (c : completion) : M ret :=
  match c with
  | Return r => ok r
  | Throw e => raise e
  end.

Definition emit (e : event) : M unit :=
  fun s => (Ok tt, {| builders := builders s; callables := callables s;
                      log := log s ++ [e] |}).

(** A reference always designates a live object in JavaScript; a location
    outside the store does not arise from the API. *)
Definition dangling : exn := JsError "ReferenceError" "dangling reference".

Definition builder_at (b : loc) : M builder_obj :=
  fun s => match builders s !! b with
           | Some o => (Ok o, s)
           | None => (Raise dangling, s)
           end.

Definition options_at (o : loc) : M options :=
  fun s => match callables s !! o with
           | Some r => (Ok r, s)
           | None => (Raise dangling, s)
           end.

Definition new_builder (o : builder_obj) : M loc :=
  fun s => (Ok (length (builders s)),
            {| builders := builders s ++ [o]; callables := callables s;
               log := log s |}).

Definition new_options (r : options) : M loc :=
  fun s => (Ok (length (callables s)),
            {| builders := builders s; callables := callables s ++ [r];
               log := log s |}).

Definition write_builder (b : loc) (o : builder_obj) : M unit :=
  fun s => (Ok tt, {| builders := <[b := o]> (builders s);
                      callables := callables s; log := log s |}).

Definition write_options (o : loc) (r : options) : M unit :=
  fun s => (Ok tt, {| builders := builders s;
                      callables := <[o := r]> (callables s); log := log s |}).

(** [builder._schemas]; reading a member of it when there is none is a
    [TypeError]. *)
Definition read_schemas (b : loc) : M schemas :=
  let! o := builder_at b in
  match o with
  | Instance _ sc => ok sc
  | Root => raise (JsError "TypeError" "Cannot read properties of undefined")
  end.

(** [builder._schemas.args = argSchemas] and [builder._schemas.return = s] *)
Definition assign_args (b : loc) (argSchemas : list schema) : M unit :=
  let! o := builder_at b in
  match o with
  | Instance p sc =>
      write_builder b (Instance p {| args := argSchemas; return_ := return_ sc |})
  | Root => raise (JsError "TypeError" "Cannot set properties of undefined")
  end.

Definition assign_return (b : loc) (returnSchema : schema) : M unit :=
  let! o := builder_at b in
  match o with
  | Instance p sc =>
      write_builder b (Instance p {| args := args sc; return_ := returnSchema |})
  | Root => raise (JsError "TypeError" "Cannot set properties of undefined")
  end.

(** ** The execution engine ([getExecFn], the closures of [create] and
    [createAsync]) *)

(** A materialized callable [resFn]: the closure of [create] ([isAsync] is
    [false]) or of [createAsync], over the builder it captured, its
    [options] record, and the original implementation [ogFn]. *)
Record callable := {
  isAsync : bool;
  builder : loc;
  builderOpts : loc;
  ogFn : impl_fn
}.

Definition default_spyFn : spy_fn := fun _args _ret _ => Return (Plain VUndefined).
Definition default_onErrorFn : onError_fn := fun err _args => Throw err.

Definition sync_onError_message : string :=
  "onError handler function cannot return a promise in a synchronous context".
Definition sync_spy_message : string :=
  "Spy handler function cannot return a promise in a synchronous context".

Section Engine.

Variable JSON_parse : string -> option value.

(** [builderOpts.execFn(...parsedArgs)] *)
Definition call_execFn (builderOpts : loc) (parsedArgs : list value) : M ret :=
  let! o := options_at builderOpts in
  emit (Exec parsedArgs);;
  complete (execFn o parsedArgs).

(** [builderOpts.onErrorFn(error, parsedArgs)] *)
Definition call_onErrorFn (builderOpts : loc) (error : exn)
    (parsedArgs : list value) : M ret :=
  let! o := options_at builderOpts in
  emit (OnError error parsedArgs);;
  complete (onErrorFn o error parsedArgs).

(** [builderOpts.spyFnCount++;
     builderOpts.spyFn(parsedArgs, ret, builderOpts.spyFnCount)] *)
Definition call_spyFn (builderOpts : loc) (parsedArgs : list value)
    (ret : value) : M Js.ret :=
  let! o := options_at builderOpts in
  write_options builderOpts
    {| execFn := execFn o; spyFn := spyFn o;
       spyFnCount := S (spyFnCount o); onErrorFn := onErrorFn o |};;
  let! o := options_at builderOpts in
  emit (Spy parsedArgs ret (spyFnCount o));;
  complete (spyFn o parsedArgs ret (spyFnCount o)).

(** The loop over the call arguments, from index [i] on: the schema at the
    index is read from the builder at every iteration. *)
Fixpoint for_args (builder : loc) (isAsync : bool) (i : nat)
    (rest : list value) : M (list value) :=
  match rest with
  | [] => ok []
  | arg :: rest' =>
      let! sc := read_schemas builder in
      let! parsed :=
        match args sc !! i with
        | Some schema =>
            if schema_truthy schema then
              emit (ParseArg (i + 1) arg);;
              lift (argValidation JSON_parse arg (i + 1) schema isAsync)
            else ok arg
        | None => ok arg
        end in
      let! parsedArgs := for_args builder isAsync (S i) rest' in
      ok (parsed :: parsedArgs)
  end.

(** [returnValidation(ret, builder._schemas.return, isAsync)] *)
Definition validate_return (builder : loc) (ret : value) (isAsync : bool)
    : M value :=
  let! sc := read_schemas builder in
  emit (ValidateReturn ret);;
  lift (returnValidation JSON_parse ret (return_ sc) isAsync).

(** The handler of the [catch] clauses that may await: the error handler's
    result, awaited if it is a promise. *)
Definition recover_async (builderOpts : loc) (parsedArgs : list value)
    (error : exn) : M value :=
  let! ret := call_onErrorFn builderOpts error parsedArgs in
  settle ret.

(** Return validation, then the spy, awaited: the end of both asynchronous
    bodies. *)
Definition finish_async (builder builderOpts : loc) (parsedArgs : list value)
    (ret : value) (isAsync : bool) : M value :=
  let! ret := validate_return builder ret isAsync in
  let! spyFnRes := call_spyFn builderOpts parsedArgs ret in
  settle spyFnRes;;
  ok ret.

(** The closure returned by [create]. *)
Definition create_fn (builder builderOpts : loc) (args : list value) : M ret :=
  let! parsedArgs := for_args builder false 0 args in
  let! r :=
    try_catch
      (let! ret := call_execFn builderOpts parsedArgs in
       match ret with
       | Promise p =>
           let! res :=
             async_
               (let! ret := try_catch (await p)
                              (recover_async builderOpts parsedArgs) in
                finish_async builder builderOpts parsedArgs ret false) in
           ok (inl res)
       | Plain v => ok (inr v)
       end)
      (fun error =>
         let! ret := call_onErrorFn builderOpts error parsedArgs in
         match ret with
         | Promise p =>
             emit (CatchIgnored p);;
             raise (ZodFnError sync_onError_message)
         | Plain v => ok (inr v)
         end) in
  match r with
  | inl res => ok res
  | inr ret =>
      let! ret := validate_return builder ret false in
      let! spyFnRes := call_spyFn builderOpts parsedArgs ret in
      match spyFnRes with
      | Promise p =>
          emit (CatchIgnored p);;
          raise (ZodFnError sync_spy_message)
      | Plain _ => ok (Plain ret)
      end
  end.

(** The closure returned by [createAsync]. *)
Definition createAsync_fn (builder builderOpts : loc) (args : list value)
    : M ret :=
  async_
    (let! parsedArgs := for_args builder true 0 args in
     let! ret :=
       try_catch
         (let! ret := call_execFn builderOpts parsedArgs in
          settle ret)
         (recover_async builderOpts parsedArgs) in
     finish_async builder builderOpts parsedArgs ret true).

(** Calling a materialized callable. *)
Definition invoke (f : callable) (args : list value) : M ret :=
  if isAsync f then createAsync_fn (builder f) (builderOpts f) args
  else create_fn (builder f) (builderOpts f) args.

(** [getExecFn(ogFn, fnBuilder)]: a fresh [options] record around [ogFn]. *)
Definition getExecFn (ogFn : impl_fn) (isAsync : bool) (builder : loc)
    : M callable :=
  let! o := new_options {| execFn := ogFn; spyFn := default_spyFn;
                           spyFnCount := 0; onErrorFn := default_onErrorFn |} in
  ok {| isAsync := isAsync; builder := builder; builderOpts := o;
        ogFn := ogFn |}.

End Engine.

(** ** The instrumentation methods of a callable ([resFn.mock], ...) *)

Definition with_execFn (o : options) (f : impl_fn) : options :=
  {| execFn := f; spyFn := spyFn o; spyFnCount := spyFnCount o;
     onErrorFn := onErrorFn o |}.

Definition with_spy (o : options) (f : spy_fn) : options :=
  {| execFn := execFn o; spyFn := f; spyFnCount := 0;
     onErrorFn := onErrorFn o |}.

Definition with_onErrorFn (o : options) (f : onError_fn) : options :=
  {| execFn := execFn o; spyFn := spyFn o; spyFnCount := spyFnCount o;
     onErrorFn := f |}.

Definition mock (resFn : callable) (_mock : dyn impl_fn) : M callable :=
  match _mock with
  | Data VUndefined => raise (ZodFnError "Mock function argument not provided")
  | Data _ => raise (ZodFnError "Mock argument must be a function")
  | Fun f =>
      let! o := options_at (builderOpts resFn) in
      write_options (builderOpts resFn) (with_execFn o f);;
      ok resFn
  end.

Definition resetMock (resFn : callable) : M callable :=
  let! o := options_at (builderOpts resFn) in
  write_options (builderOpts resFn) (with_execFn o (ogFn resFn));;
  ok resFn.

Definition spy (resFn : callable) (_spy : dyn spy_fn) : M callable :=
  match _spy with
  | Data VUndefined => raise (ZodFnError "Spy handler function not provided")
  | Data _ => raise (ZodFnError "Spy handler must be a function")
  | Fun f =>
      let! o := options_at (builderOpts resFn) in
      write_options (builderOpts resFn) (with_spy o f);;
      ok resFn
  end.

Definition resetSpy (resFn : callable) : M callable :=
  let! o := options_at (builderOpts resFn) in
  write_options (builderOpts resFn) (with_spy o default_spyFn);;
  ok resFn.

Definition onError (resFn : callable) (_onError : dyn onError_fn) : M callable :=
  match _onError with
  | Data VUndefined => raise (ZodFnError "onError handler function not provided")
  | Data _ => raise (ZodFnError "onError handler must be a function")
  | Fun f =>
      let! o := options_at (builderOpts resFn) in
      write_options (builderOpts resFn) (with_onErrorFn o f);;
      ok resFn
  end.

(** ** The builder ([getBuilderInstance], [zfnBuilder]) *)

Definition getBuilderInstance (obj : loc) : M loc :=
  let! o := builder_at obj in
  if has_schemas o then ok obj
  else new_builder (Instance obj {| args := []; return_ := CData VUndefined |}).

(** What a [build] configurator returns: data, or an object whose [args]
    member is absent or an array of schema values and whose [returns] member
    is any schema value ([CData VUndefined] when absent). *)
Inductive build_result :=
| BuildValue (v : value)
| BuildConfig (args : option (list schema)) (returns : schema).

(** [typeof result !== "object" || result === null] *)
Definition not_an_object (result : build_result) : bool :=
  match result with
  | BuildValue (VArray _) | BuildValue (VObject _) => false
  | BuildValue _ => true
  | BuildConfig _ _ => false
  end.

Definition chars (s : string) : list schema :=
  (fun c => CData (VString (String c EmptyString))) <$> list_ascii_of_string s.

(** [result.args], when truthy, as spread into the call of [args]. *)
Definition result_args (result : build_result) : option (list schema + exn) :=
  match result with
  | BuildConfig (Some l) _ => Some (inl l)
  | BuildConfig None _ => None
  | BuildValue v =>
      let a := get "args" v in
      if truthy a then
        match a with
        | VArray items => Some (inl (CData <$> items))
        | VString s => Some (inl (chars s))
        | _ => Some (inr (JsError "TypeError"
                 "Spread syntax requires ...iterable[Symbol.iterator] to be a function"))
        end
      else None
  end.

(** [result.returns] *)
Definition result_returns (result : build_result) : schema :=
  match result with
  | BuildConfig _ r => r
  | BuildValue v => CData (get "returns" v)
  end.

Definition build_fn := unit -> build_result + exn.

Module zfnBuilder.

(** The loop of [args] over the schemas, from index [i] on. *)
Fixpoint check_schemas (i : nat) (argSchemas : list schema) : M unit :=
  match argSchemas with
  | [] => ok tt
  | schema :: rest =>
      if negb (is_function (get_parseAsync schema))
         && negb (is_function (get_parseAsync schema))
      then raise (ZodFnError (nat_to_string (i + 1) ++ getOrdinalSuffix (i + 1)
                                ++ " argument must be a valid Zod schema"))
      else check_schemas (S i) rest
  end.

Definition args (this : loc) (argSchemas : list schema) : M loc :=
  let! builder := getBuilderInstance this in
  if Nat.eqb (length argSchemas) 0
  then raise (ZodFnError "Argument schemas not provided")
  else
    check_schemas 0 argSchemas;;
    assign_args builder argSchemas;;
    ok builder.

Definition returns (this : loc) (returnSchema : schema) : M loc :=
  let! builder := getBuilderInstance this in
  if schema_is_undefined returnSchema
  then raise (ZodFnError "Return schema not provided")
  else if negb (is_function (get_parseAsync returnSchema))
          && negb (is_function (get_parseAsync returnSchema))
  then raise (ZodFnError "Return value must be a valid Zod schema")
  else
    assign_return builder returnSchema;;
    ok builder.

Definition build (this : loc) (_buildFn : dyn build_fn) : M loc :=
  let! builder := getBuilderInstance this in
  match _buildFn with
  | Data VUndefined => raise (ZodFnError "Build function argument not provided")
  | Data _ => raise (ZodFnError "Build argument must be a function")
  | Fun f =>
      match f tt with
      | inr e => raise e
      | inl result =>
          if not_an_object result
          then raise (ZodFnError "Build function return value is not valid")
          else
            match result_args result with
            | Some (inl l) => let! _ := args builder l in ok tt
            | Some (inr e) => raise e
            | None => ok tt
            end;;
            (if schema_truthy (result_returns result)
             then let! _ := returns builder (result_returns result) in ok tt
             else ok tt);;
            ok builder
      end
  end.

Definition create (this : loc) (fn : dyn impl_fn) : M callable :=
  match fn with
  | Data VUndefined => raise (ZodFnError "Create function not provided")
  | Data _ => raise (ZodFnError "Create argument must be a function")
  | Fun f =>
      let! builder := getBuilderInstance this in
      getExecFn f false builder
  end.

Definition createAsync (this : loc) (fn : dyn impl_fn) : M callable :=
  match fn with
  | Data VUndefined => raise (ZodFnError "Create function not provided")
  | Data _ => raise (ZodFnError "Create argument must be a function")
  | Fun f =>
      let! builder := getBuilderInstance this in
      getExecFn f true builder
  end.

End zfnBuilder.

(** ** Sample data: the schemas and functions of the test suite *)

Module Sample.

Definition dq : string := String (ascii_of_nat 34) EmptyString.

(** The message of the error Zod throws when a number was expected and a
    string received: a JSON-encoded list of one issue, with an empty path. *)
Definition expected_number : string :=
  "[{" ++ dq ++ "path" ++ dq ++ ":[]," ++ dq ++ "message" ++ dq ++ ":"
  ++ dq ++ "Invalid input: expected number, received string" ++ dq ++ "}]".

Definition expected_number_issues : value :=
  VArray [VObject [("path", VArray []);
                   ("message", VString "Invalid input: expected number, received string")]].

(** The message of an issue below the path [c.d.e]. *)
Definition expected_string_at_path : string :=
  "[{" ++ dq ++ "path" ++ dq ++ ":[" ++ dq ++ "c" ++ dq ++ "," ++ dq ++ "d"
  ++ dq ++ "," ++ dq ++ "e" ++ dq ++ "]," ++ dq ++ "message" ++ dq ++ ":"
  ++ dq ++ "Invalid input: expected string, received number" ++ dq ++ "}]".

Definition expected_string_issues : value :=
  VArray [VObject [("path", VArray [VString "c"; VString "d"; VString "e"]);
                   ("message", VString "Invalid input: expected string, received number")]].

(** [JSON.parse] on the messages that occur in the examples; every other
    message used there is not JSON. *)
Definition JSON_parse (s : string) : option value :=
  if String.eqb s expected_number then Some expected_number_issues
  else if String.eqb s expected_string_at_path then Some expected_string_issues
  else None.

(** [z.number()] *)
Definition number_parse : parse_fn :=
  fun v => match v with
           | VNumber _ => inl v
           | _ => inr (JsError "ZodError" expected_number)
           end.

Definition number : schema :=
  CObject (Fun number_parse)
          (Fun (fun v => match number_parse v with
                         | inl r => Fulfilled r
                         | inr e => Rejected e
                         end)).

(** [z.any()] *)
Definition any : schema :=
  CObject (Fun (fun v => inl v)) (Fun (fun v => Fulfilled v)).

(** A stand-in with the asynchronous entry point only. *)
Definition async_only : schema :=
  CObject (Data VUndefined) (Fun (fun v => Fulfilled v)).

(** [(a) => a] *)
Definition first_arg : impl_fn :=
  fun args => Return (Plain (default VUndefined (args !! 0))).

(** [(a, b) => a + b] on numbers *)
Definition add : impl_fn :=
  fun args =>
    match args with
    | VNumber a :: VNumber b :: _ => Return (Plain (VNumber (a + b)))
    | _ => Return (Plain VUndefined)
    end.

(** [() => { throw new Error("Error message") }] *)
Definition failing : impl_fn :=
  fun _ => Throw (JsError "Error" "Error message").

(** [async () => { throw new Error("Error message") }] *)
Definition rejecting : impl_fn :=
  fun _ => Return (Promise (Rejected (JsError "Error" "Error message"))).

(** [async () => 10], as an error handler *)
Definition async_handler : onError_fn :=
  fun _ _ => Return (Promise (Fulfilled (VNumber 10))).

(** [() => 10], as an error handler *)
Definition handler : onError_fn :=
  fun _ _ => Return (Plain (VNumber 10)).

(** A spy without effect of its own; its invocations are in the log. *)
Definition observer : spy_fn :=
  fun _ _ _ => Return (Plain VUndefined).

(** Running a computation for its store, and for its result. *)
Definition exec {A} (m : M A) (s : store) : store := snd (m s).
Definition eval {A} (m : M A) (s : store) : outcome A := fst (m s).

(** [zfn.args(z.number(), z.number()).returns(z.number()).create((a, b) => a + b)] *)
Definition adder_setup : M callable :=
  let! b := zfnBuilder.args zfn [number; number] in
  let! b := zfnBuilder.returns b number in
  zfnBuilder.create b (Fun add).

Definition adder : callable :=
  {| isAsync := false; builder := 1; builderOpts := 0; ogFn := add |}.

Definition adder_store : store := exec adder_setup initial.

(** The same with [createAsync]. *)
Definition async_adder_setup : M callable :=
  let! b := zfnBuilder.args zfn [number; number] in
  let! b := zfnBuilder.returns b number in
  zfnBuilder.createAsync b (Fun add).

Definition async_adder : callable :=
  {| isAsync := true; builder := 1; builderOpts := 0; ogFn := add |}.

(** [zfn.create(() => { throw new Error("Error message") })
        .onError(async () => 10)] *)
Definition thrower_setup : M callable :=
  let! f := zfnBuilder.create zfn (Fun failing) in
  onError f (Fun async_handler).

Definition thrower : callable :=
  {| isAsync := false; builder := 1; builderOpts := 0; ogFn := failing |}.

Definition thrower_store : store := exec thrower_setup initial.

(** [const b = zfn.args(z.number()); const f = b.create((a) => a)] *)
Definition b_setup : M loc := zfnBuilder.args zfn [number].

Definition b : loc := 1.

Definition f_setup : M callable :=
  let! b := b_setup in
  zfnBuilder.create b (Fun first_arg).

Definition f : callable :=
  {| isAsync := false; builder := 1; builderOpts := 0; ogFn := first_arg |}.

End Sample.


(** ** Vocabulary of the statements *)

Local Open Scope list_scope.

(** The store after more events were logged, and after the spy stage of
    the callable with options [o] at [bo] ran. *)
Definition logged (s : store) (evs : list event) : store :=
  {| builders := builders s; callables := callables s; log := log s ++ evs |}.

Definition bump (o : options) : options :=
  {| execFn := execFn o; spyFn := spyFn o; spyFnCount := S (spyFnCount o);
     onErrorFn := onErrorFn o |}.

Definition spied (s : store) (bo : loc) (o : options) (evs : list event) : store :=
  {| builders := builders s; callables := <[bo := bump o]> (callables s);
     log := log s ++ evs |}.

Definition completed (c : completion) : outcome ret :=
  match c with Return r => Ok r | Throw e => Raise e end.

(** An event of the argument loop over [rest], whose first element is the
    argument of index [i]: the parse of an argument that was passed. *)
Definition passed_arg (i : nat) (rest : list value) (e : event) : Prop :=
  exists pos a, e = ParseArg pos a /\ i < pos <= i + length rest
                /\ rest !! (pos - 1 - i) = Some a.

Definition is_OnError (e : event) : bool :=
  match e with OnError _ _ => true | _ => false end.

Definition is_Spy (e : event) : bool :=
  match e with Spy _ _ _ => true | _ => false end.

Definition is_ValidateReturn (e : event) : bool :=
  match e with ValidateReturn _ => true | _ => false end.

Definition is_CatchIgnored (e : event) : bool :=
  match e with CatchIgnored _ => true | _ => false end.

(** The third arguments of the spy invocations of a log, in order. *)
Fixpoint spy_counts (evs : list event) : list nat :=
  match evs with
  | [] => []
  | Spy _ _ c :: rest => c :: spy_counts rest
  | _ :: rest => spy_counts rest
  end.

(** A call that returned a value, directly or as the resolution of its
    promise. *)
Definition succeeded (out : outcome ret) : bool :=
  match out with
  | Ok (Plain _) | Ok (Promise (Fulfilled _)) => true
  | _ => false
  end.

(** Successive calls of one callable, each run whatever the previous one
    did. *)
Fixpoint invoke_each (JSON_parse : string -> option value) (f : callable)
    (calls : list (list value)) (s : store) : list (outcome ret) * store :=
  match calls with
  | [] => ([], s)
  | callargs :: rest =>
      let (out, s1) := invoke JSON_parse f callargs s in
      let (outs, s2) := invoke_each JSON_parse f rest s1 in
      (out :: outs, s2)
  end.

(** A call of one of the builder's methods, and a sequence of such calls on
    given receivers. *)
Inductive config_call :=
| Args (argSchemas : list schema)
| Returns (returnSchema : schema)
| Build (_buildFn : dyn build_fn)
| Create (fn : dyn impl_fn)
| CreateAsync (fn : dyn impl_fn).

Definition run_config (this : loc) (c : config_call) (s : store) : store :=
  match c with
  | Args l => snd (zfnBuilder.args this l s)
  | Returns r => snd (zfnBuilder.returns this r s)
  | Build g => snd (zfnBuilder.build this g s)
  | Create fn => snd (zfnBuilder.create this fn s)
  | CreateAsync fn => snd (zfnBuilder.createAsync this fn s)
  end.

Fixpoint run_steps (steps : list (loc * config_call)) (s : store) : store :=
  match steps with
  | [] => s
  | (this, c) :: rest => run_steps rest (run_config this c s)
  end.

(** The character [c] does not occur in [s]. *)
Fixpoint free_of (c : ascii) (s : string) : bool :=
  match s with
  | EmptyString => true
  | String a s' => negb (Ascii.eqb c a) && free_of c s'
  end.

(** The [_schemas] of a new builder instance. *)
Definition empty_schemas : schemas := {| args := []; return_ := CData VUndefined |}.

(** Whether a value is accepted as a schema: [typeof v?.parseAsync] is
    ["function"]. *)
Definition is_schema (v : schema) : bool := is_function (get_parseAsync v).


(** ** Further vocabulary: occurrences, event counts, the mutators *)

(** The string [pat] occurs in [s]. *)
Fixpoint occurs (pat s : string) : bool :=
  starts_with pat s
  || match s with
     | EmptyString => false
     | String _ s' => occurs pat s'
     end.


Definition is_ParseArg (e : event) : bool :=
  match e with ParseArg _ _ => true | _ => false end.

(** The number of events of a log that satisfy [p]. *)
Fixpoint count_events (p : event -> bool) (evs : list event) : nat :=
  match evs with
  | [] => 0
  | e :: rest => (if p e then 1 else 0) + count_events p rest
  end.

(** A call of one of the instrumentation methods of a callable. *)
Inductive mutator :=
| Mock (_mock : dyn impl_fn)
| ResetMock
| SpyWith (_spy : dyn spy_fn)
| ResetSpy
| OnErrorWith (_onError : dyn onError_fn).

Definition run_mutator (resFn : callable) (m : mutator) : M callable :=
  match m with
  | Mock d => mock resFn d
  | ResetMock => resetMock resFn
  | SpyWith d => spy resFn d
  | ResetSpy => resetSpy resFn
  | OnErrorWith d => onError resFn d
  end.

(** What the implementation is given for the call argument [arg] of index
    [k], under the argument schemas [schemas]: the output of the schema at
    the index when there is one, the argument itself otherwise. *)
Definition parsed_as (JSON_parse : string -> option value)
    (schemas : list schema) (mode : bool) (k : nat) (arg v : value) : Prop :=
  match schemas !! k with
  | Some schema =>
      if schema_truthy schema
      then argValidation JSON_parse arg (k + 1) schema mode = Ok v
      else v = arg
  | None => v = arg
  end.

(** The message of a structured validation error, before the substitution
    of the asynchronous entry point. *)
Definition structured_message (label : string) (segments : list value)
    (message : value) : string :=
  ("Validation failed for " ++ label
   ++ (if String.eqb (join "." segments) "" then ""
       else " - Path: " ++ join "." segments)
   ++ " - " ++ ToString message)%string.

(** Every number that ToString renders in [v] is a safe integer
    ([Number.isSafeInteger]): such numbers print with all their digits. *)
Fixpoint safe_integers (v : value) : bool :=
  match v with
  | VNumber n => (Z.abs n <=? 9007199254740991)%Z
  | VArray items => forallb safe_integers items
  | _ => true
  end.

(** The test that [throwError] makes on the parsed message. *)
Definition is_issue_list (json : value) : bool :=
  isArray json
  && truthy (get "message" (first_issue json))
  && truthy (get "path" (first_issue json)).

(** Further sample callables. *)
Module Scenario.

(** [zfn.create((a) => a)], without any schema *)
Definition identity_setup : M callable :=
  zfnBuilder.create zfn (Fun Sample.first_arg).

Definition identity : callable :=
  {| isAsync := false; builder := 1; builderOpts := 0; ogFn := Sample.first_arg |}.

Definition identity_store : store := Sample.exec identity_setup initial.

(** [zfn.create(() => { throw new Error("Error message") })], with the
    default error handler *)
Definition failing_setup : M callable :=
  zfnBuilder.create zfn (Fun Sample.failing).

Definition failing : callable :=
  {| isAsync := false; builder := 1; builderOpts := 0; ogFn := Sample.failing |}.

Definition failing_store : store := Sample.exec failing_setup initial.

(** [zfn.returns(z.number())
        .create(async () => { throw new Error("Error message") })
        .onError(async () => 10)] *)
Definition recovering_setup : M callable :=
  let! b := zfnBuilder.returns zfn Sample.number in
  let! f := zfnBuilder.create b (Fun Sample.rejecting) in
  onError f (Fun Sample.async_handler).

Definition recovering : callable :=
  {| isAsync := false; builder := 1; builderOpts := 0;
     ogFn := Sample.rejecting |}.

Definition recovering_store : store := Sample.exec recovering_setup initial.

(** [zfn.returns(z.number())
        .createAsync(() => { throw new Error("Error message") })
        .onError(() => 10)] *)
Definition async_recovering_setup : M callable :=
  let! b := zfnBuilder.returns zfn Sample.number in
  let! f := zfnBuilder.createAsync b (Fun Sample.failing) in
  onError f (Fun Sample.handler).

Definition async_recovering : callable :=
  {| isAsync := true; builder := 1; builderOpts := 0;
     ogFn := Sample.failing |}.

Definition async_recovering_store : store :=
  Sample.exec async_recovering_setup initial.

(** [async () => {}], as a spy *)
Definition async_spy : spy_fn :=
  fun _ _ _ => Return (Promise (Fulfilled VUndefined)).

(** [(a, b) => a * b], as a mock *)
Definition mul : impl_fn :=
  fun args =>
    match args with
    | VNumber a :: VNumber b :: _ => Return (Plain (VNumber (a * b)))
    | _ => Return (Plain VUndefined)
    end.

(** [z.number().transform((val) => String(val))], on small numbers *)
Definition number_to_string : schema :=
  CObject
    (Fun (fun v => match v with
                   | VNumber n => inl (VString (Z_to_string n))
                   | _ => inr (JsError "ZodError" Sample.expected_number)
                   end))
    (Fun (fun v => match v with
                   | VNumber n => Fulfilled (VString (Z_to_string n))
                   | _ => Rejected (JsError "ZodError" Sample.expected_number)
                   end)).

(** The error Zod throws when a synchronous parse meets a promise. *)
Definition escalation : exn :=
  JsError "Error"
    "Encountered Promise during synchronous parse. Use .parseAsync() instead.".

End Scenario.


(** * Properties *)

(** ** Error messages *)

Lemma free_of_app c (s t : string) :
  free_of c (s ++ t)%string = free_of c s && free_of c t.
Proof.
  induction s as [|a s IH]; simpl; [reflexivity|].
  rewrite IH. apply andb_assoc.
Qed.

Lemma string_app_assoc (s t u : string) :
  ((s ++ t) ++ u = s ++ t ++ u)%string.
Proof. induction s as [|a s IH]; simpl; congruence. Qed.

(** [replace] leaves alone a prefix in which the first character of the
    pattern does not occur. *)
Lemma replace_skips_prefix c pat rep (p rest : string) :
  free_of c p = true ->
  replace (String c pat) rep (p ++ rest)%string
  = (p ++ replace (String c pat) rep rest)%string.
Proof.
  intros Hfree. induction p as [|a p IH]; [reflexivity|].
  simpl in Hfree. apply andb_prop in Hfree as [Hca Hp].
  change (String a p ++ rest)%string with (String a (p ++ rest)%string).
  cbn [replace starts_with]. rewrite (negb_true_iff _) in Hca. rewrite Hca.
  cbn. f_equal. apply IH, Hp.
Qed.

Lemma digits_free_of_p (d : Decimal.uint) :
  free_of "p" (NilEmpty.string_of_uint d) = true.
Proof. induction d; simpl; auto. Qed.

Lemma suffix_free_of_p n : free_of "p" (getOrdinalSuffix n) = true.
Proof.
  unfold getOrdinalSuffix.
  repeat match goal with |- context [if ?b then _ else _] => destruct b end;
    reflexivity.
Qed.

Lemma arg_label_free_of_p n :
  free_of "p" ("Validation failed for " ++ arg_label n)%string = true.
Proof.
  unfold arg_label, nat_to_string.
  rewrite !free_of_app, digits_free_of_p, suffix_free_of_p. reflexivity.
Qed.

Lemma throwError_structured JSON_parse label error first rest segments :
  JSON_parse (message error) = Some (VArray (first :: rest)) ->
  truthy (get "message" first) = true ->
  get "path" first = VArray segments ->
  free_of "p" ("Validation failed for " ++ label)%string = true ->
  exists tail,
    throwError JSON_parse label error
    = ZodFnError (("Validation failed for " ++ label) ++ tail)%string.
Proof.
  intros Hjson Hmsg Hpath Hfree. unfold throwError.
  rewrite Hjson. cbn [isArray first_issue andb]. rewrite Hmsg, Hpath.
  cbn [truthy andb].
  remember ("Validation failed for " ++ label)%string as prefix eqn:Eprefix.
  destruct (negb (join "." segments =? "")%string).
  - rewrite !string_app_assoc.
    rewrite (replace_skips_prefix "p") by exact Hfree.
    eexists. reflexivity.
  - rewrite (replace_skips_prefix "p") by exact Hfree.
    eexists. reflexivity.
Qed.

Lemma getOrdinalSuffix_cases n :
  getOrdinalSuffix n =
    if Nat.leb 11 (n mod 100) && Nat.leb (n mod 100) 13 then "th"
    else match n mod 10 with
         | 1 => "st"
         | 2 => "nd"
         | 3 => "rd"
         | _ => "th"
         end.
Proof.
  unfold getOrdinalSuffix.
  assert (Hm : (n mod 100) mod 10 = n mod 10).
  { change 100 with (10 * 10). rewrite Nat.Div0.mod_mul_r.
    rewrite (Nat.mul_comm 10), Nat.Div0.mod_add. apply Nat.Div0.mod_mod. }
  assert (Hlt : n mod 100 < 100) by (apply Nat.mod_upper_bound; lia).
  assert (Hlt' : n mod 10 < 10) by (apply Nat.mod_upper_bound; lia).
  destruct (Nat.eqb_spec (n mod 100) 11) as [E|N11];
    [rewrite E in *; rewrite <- Hm; reflexivity|].
  destruct (Nat.eqb_spec (n mod 100) 12) as [E|N12];
    [rewrite E in *; rewrite <- Hm; reflexivity|].
  destruct (Nat.eqb_spec (n mod 100) 13) as [E|N13];
    [rewrite E in *; rewrite <- Hm; reflexivity|].
  replace (Nat.leb 11 (n mod 100) && Nat.leb (n mod 100) 13) with false.
  2:{ symmetry. apply andb_false_iff.
      destruct (Nat.leb_spec 11 (n mod 100)); [right|left; reflexivity].
      apply Nat.leb_gt. lia. }
  rewrite !andb_true_r.
  destruct (n mod 10) as [|[|[|[|k]]]]; reflexivity.
Qed.

(** C6: when the schema's error carries a JSON issue list whose first issue
    has a (truthy) message and a path, the error thrown for the argument at
    position [n] has a message beginning
    [Validation failed for <n><suffix> argument], and the one thrown for the
    return value a message beginning [Validation failed for return value];
    the suffix is "th" when the last two digits of [n] are 11, 12 or 13,
    otherwise "st", "nd", "rd" for a last digit 1, 2, 3, and "th" for any
    other; at 1, 2, 3, 4, 11, 12, 13, 21 it is st, nd, rd, th, th, th, th,
    st. *)
Theorem validation_message_prefix JSON_parse (mode : bool) schema arg error
    first rest segments :
  (if mode then call_parseAsync schema arg = Rejected error
   else call_parse schema arg = inr error) ->
  JSON_parse (message error) = Some (VArray (first :: rest)) ->
  truthy (get "message" first) = true ->
  get "path" first = VArray segments ->
  (forall n, exists tail,
      argValidation JSON_parse arg n schema mode
      = Raise (ZodFnError (("Validation failed for " ++ nat_to_string n
                            ++ getOrdinalSuffix n ++ " argument") ++ tail)%string))
  /\ (schema_is_undefined schema = false ->
      exists tail,
        returnValidation JSON_parse arg schema mode
        = Raise (ZodFnError ("Validation failed for return value" ++ tail)%string))
  /\ (forall n,
        getOrdinalSuffix n =
          if Nat.leb 11 (n mod 100) && Nat.leb (n mod 100) 13 then "th"
          else match n mod 10 with
               | 1 => "st"
               | 2 => "nd"
               | 3 => "rd"
               | _ => "th"
               end)
  /\ getOrdinalSuffix <$> [1; 2; 3; 4; 11; 12; 13; 21]
     = ["st"; "nd"; "rd"; "th"; "th"; "th"; "th"; "st"].
Proof.
  intros Hfail Hjson Hmsg Hpath. repeat split.
  - intros n.
    destruct (throwError_structured JSON_parse (arg_label n) error first rest
                segments Hjson Hmsg Hpath (arg_label_free_of_p n)) as [tail Ht].
    exists tail. unfold argValidation.
    destruct mode; rewrite Hfail, Ht; reflexivity.
  - intros Hdef.
    destruct (throwError_structured JSON_parse return_label error first rest
                segments Hjson Hmsg Hpath eq_refl) as [tail Ht].
    exists tail. unfold returnValidation. rewrite Hdef.
    destruct mode; rewrite Hfail, Ht; reflexivity.
  - apply getOrdinalSuffix_cases.
Qed.


(** ** Symbolic execution of the pipeline *)

Lemma logged_nil s : logged s [] = s.
Proof. destruct s. unfold logged. cbn. by rewrite app_nil_r. Qed.

Lemma logged_logged s e1 e2 : logged (logged s e1) e2 = logged s (e1 ++ e2).
Proof. unfold logged. cbn. by rewrite app_assoc. Qed.

Lemma spied_logged s e1 bo o e2 :
  spied (logged s e1) bo o e2 = spied s bo o (e1 ++ e2).
Proof. unfold spied, logged. cbn. by rewrite app_assoc. Qed.

Lemma logged_spied s e1 bo o e2 :
  logged (spied s bo o e1) e2 = spied s bo o (e1 ++ e2).
Proof. unfold spied, logged. cbn. by rewrite app_assoc. Qed.

Lemma passed_arg_tail i arg rest e :
  passed_arg (S i) rest e -> passed_arg i (arg :: rest) e.
Proof.
  intros (pos & a & -> & Hpos & Hlook). exists pos, a. split; [done|].
  split; [cbn; lia|].
  replace (pos - 1 - i) with (S (pos - 1 - S i)) by lia. exact Hlook.
Qed.

Lemma passed_arg_head i arg rest :
  passed_arg i (arg :: rest) (ParseArg (i + 1) arg).
Proof.
  exists (i + 1), arg. split; [done|]. split; [cbn; lia|].
  by replace (i + 1 - 1 - i) with 0 by lia.
Qed.

Lemma emit_run e s : emit e s = (Ok tt, logged s [e]).
Proof. reflexivity. Qed.

Lemma call_execFn_run bo parsed s o :
  callables s !! bo = Some o ->
  call_execFn bo parsed s = (completed (execFn o parsed), logged s [Exec parsed]).
Proof.
  intros H. unfold call_execFn, bind, options_at, emit, complete. rewrite H.
  cbn. destruct (execFn o parsed); reflexivity.
Qed.

Lemma call_onErrorFn_run bo err parsed s o :
  callables s !! bo = Some o ->
  call_onErrorFn bo err parsed s
  = (completed (onErrorFn o err parsed), logged s [OnError err parsed]).
Proof.
  intros H. unfold call_onErrorFn, bind, options_at, emit, complete. rewrite H.
  cbn. destruct (onErrorFn o err parsed); reflexivity.
Qed.

Lemma call_spyFn_run bo parsed v s o :
  callables s !! bo = Some o ->
  call_spyFn bo parsed v s
  = (completed (spyFn o parsed v (S (spyFnCount o))),
     spied s bo o [Spy parsed v (S (spyFnCount o))]).
Proof.
  intros H. unfold call_spyFn, bind, options_at, write_options, emit, complete.
  rewrite H. cbn.
  rewrite list_lookup_insert_eq by (eapply lookup_lt_Some; exact H). cbn.
  destruct (spyFn o parsed v (S (spyFnCount o))); reflexivity.
Qed.

Section Pipeline.

Variable JSON_parse : string -> option value.

#[local] Arguments argValidation : simpl never.
#[local] Arguments returnValidation : simpl never.
#[local] Arguments throwError : simpl never.

Lemma validate_return_run b v mode s p sc :
  builders s !! b = Some (Instance p sc) ->
  validate_return JSON_parse b v mode s
  = (returnValidation JSON_parse v (return_ sc) mode, logged s [ValidateReturn v]).
Proof.
  intros H. unfold validate_return, read_schemas, bind, builder_at, emit, lift, ok.
  rewrite H. cbn. destruct (returnValidation _ _ _ _); reflexivity.
Qed.

(** The argument loop only logs, and only parses of arguments that were
    passed. *)
Lemma for_args_run b mode i rest s out s' :
  for_args JSON_parse b mode i rest s = (out, s') ->
  exists evs, s' = logged s evs /\ Forall (passed_arg i rest) evs.
Proof.
  revert i s out s'. induction rest as [|arg rest IH]; intros i s out s' Hrun.
  - cbn in Hrun. inversion Hrun; subst. exists []. by rewrite logged_nil.
  - cbn [for_args] in Hrun. unfold bind at 1 in Hrun.
    unfold read_schemas, builder_at, bind in Hrun.
    destruct (builders s !! b) as [[|p sc]|]; cbn in Hrun;
      try (inversion Hrun; subst; exists []; by rewrite logged_nil).
    assert (Htail : forall v s1 evs1 out s',
      Forall (passed_arg i (arg :: rest)) evs1 -> s1 = logged s evs1 ->
      (let (o0, s'0) := for_args JSON_parse b mode (S i) rest s1 in
       match o0 with
       | Ok a0 => ok (v :: a0) s'0
       | Raise e => (Raise e, s'0)
       | Hang => (Hang, s'0)
       end) = (out, s') ->
      exists evs, s' = logged s evs /\ Forall (passed_arg i (arg :: rest)) evs).
    { intros v s1 evs1 out' s'' Hevs1 -> Hk.
      destruct (for_args JSON_parse b mode (S i) rest (logged s evs1))
        as [o0 s2] eqn:Erec.
      apply IH in Erec as (evs2 & -> & Hevs2).
      exists (evs1 ++ evs2). split.
      - rewrite <- logged_logged. destruct o0; inversion Hk; reflexivity.
      - apply Forall_app. split; [done|].
        eapply Forall_impl; [exact Hevs2|]. intros e. apply passed_arg_tail. }
    destruct (args sc !! i) as [schema|]; [destruct (schema_truthy schema)|].
    + unfold lift in Hrun.
      destruct (argValidation JSON_parse arg (i + 1) schema mode) as [v| |].
      * eapply (Htail v _ [ParseArg (i + 1) arg]); [|reflexivity|exact Hrun].
        constructor; [apply passed_arg_head|constructor].
      * inversion Hrun; subst. exists [ParseArg (i + 1) arg]. split; [done|].
        constructor; [apply passed_arg_head|constructor].
      * inversion Hrun; subst. exists [ParseArg (i + 1) arg]. split; [done|].
        constructor; [apply passed_arg_head|constructor].
    + eapply (Htail arg _ []); [constructor|by rewrite logged_nil|exact Hrun].
    + eapply (Htail arg _ []); [constructor|by rewrite logged_nil|exact Hrun].
Qed.

(** An error raised by the argument loop is the validation error of an
    argument that was passed, at its own position. *)
Lemma for_args_raise b mode i rest s e s' p sc :
  builders s !! b = Some (Instance p sc) ->
  for_args JSON_parse b mode i rest s = (Raise e, s') ->
  exists k arg schema,
    rest !! k = Some arg /\ args sc !! (i + k) = Some schema
    /\ schema_truthy schema = true
    /\ argValidation JSON_parse arg (i + k + 1) schema mode = Raise e.
Proof.
  revert i s. induction rest as [|arg rest IH]; intros i s Hb Hrun.
  - cbn in Hrun. inversion Hrun.
  - cbn [for_args] in Hrun. unfold bind at 1 in Hrun.
    unfold read_schemas, builder_at, bind in Hrun. rewrite Hb in Hrun.
    cbn in Hrun.
    assert (Htail : forall v s1,
      builders s1 !! b = Some (Instance p sc) ->
      (let (o0, s'0) := for_args JSON_parse b mode (S i) rest s1 in
       match o0 with
       | Ok a0 => ok (v :: a0) s'0
       | Raise e => (Raise e, s'0)
       | Hang => (Hang, s'0)
       end) = (Raise e, s') ->
      exists k arg0 schema,
        (arg :: rest) !! k = Some arg0 /\ args sc !! (i + k) = Some schema
        /\ schema_truthy schema = true
        /\ argValidation JSON_parse arg0 (i + k + 1) schema mode = Raise e).
    { intros v s1 Hb1 Hk.
      destruct (for_args JSON_parse b mode (S i) rest s1) as [o0 s2] eqn:Erec.
      destruct o0 as [a0|e0|]; inversion Hk; subst.
      destruct (IH _ _ Hb1 Erec) as (k & a & sch & Hk1 & Hk2 & Hk3 & Hk4).
      exists (S k), a, sch. repeat split; try done.
      - by replace (i + S k) with (S i + k) by lia.
      - by replace (i + S k + 1) with (S i + k + 1) by lia. }
    destruct (args sc !! i) as [schema|] eqn:Esc;
      [destruct (schema_truthy schema) eqn:Etruthy|].
    + unfold lift in Hrun.
      destruct (argValidation JSON_parse arg (i + 1) schema mode) as [v|e0|] eqn:Eval.
      * eapply Htail; [|exact Hrun]. exact Hb.
      * inversion Hrun; subst. exists 0, arg, schema.
        rewrite !Nat.add_0_r. done.
      * inversion Hrun.
    + eapply Htail; [|exact Hrun]. exact Hb.
    + eapply Htail; [|exact Hrun]. exact Hb.
Qed.

End Pipeline.


(** Running a callable symbolically: the loop over the arguments is
    summarised by [for_args_run]; every later call of a user function is
    replaced by its equation and a case distinction on what it returns. *)
Ltac run_step JSON_parse H Hb Ho :=
  first
    [ erewrite call_execFn_run in H by exact Ho
    | erewrite call_onErrorFn_run in H by exact Ho
    | erewrite call_spyFn_run in H by exact Ho
    | erewrite (validate_return_run JSON_parse) in H by exact Hb
    | rewrite emit_run in H
    | match type of H with
      | context [match completed ?c with _ => _ end] =>
          let E := fresh "Ecall" in destruct c as [[?|[?|?|]]|?] eqn:E
      | context [match returnValidation ?j ?v ?sc ?m with _ => _ end] =>
          let E := fresh "Eret" in destruct (returnValidation j v sc m) eqn:E
      end ];
  cbn [completed awaited fst snd] in H.

Ltac run_body JSON_parse H Hb Ho :=
  unfold finish_async, recover_async, bind, try_catch, async_, settle, await,
    lift, ok, raise in H;
  repeat run_step JSON_parse H Hb Ho;
  rewrite ?logged_logged, ?spied_logged, ?logged_spied in H;
  rewrite <- ?app_assoc in H; cbn [app] in H;
  inversion H; subst; clear H.

Ltac run_pipeline JSON_parse H Hb Ho :=
  let o1 := fresh "o1" in
  let s1 := fresh "s1" in
  let Hargs := fresh "Hargs" in
  let evs0 := fresh "evs0" in
  let Hevs0 := fresh "Hevs0" in
  unfold invoke in H;
  match type of H with
  | (if ?m then _ else _) _ = _ =>
      let Emode := fresh "Emode" in destruct m eqn:Emode
  end;
  [ unfold createAsync_fn, async_, bind at 1 in H
  | unfold create_fn, bind at 1 in H ];
  match type of H with
  | context [for_args JSON_parse ?b ?m ?i ?l ?s] =>
      destruct (for_args JSON_parse b m i l s) as [o1 s1] eqn:Hargs;
      pose proof (for_args_run JSON_parse _ _ _ _ _ _ _ Hargs)
        as (evs0 & -> & Hevs0);
      destruct o1 as [?parsed|?e|];
      [ run_body JSON_parse H Hb Ho
      | inversion H; subst; clear H
      | inversion H; subst; clear H ]
  end.

(** Membership of an event in [evs0 ++ l] for an explicit list [l]. *)
Ltac trace_cases H :=
  apply elem_of_app in H as [H|H];
  [ | repeat (apply elem_of_cons in H as [H|H]; [try discriminate H|]);
      try (apply elem_of_nil in H; contradiction) ].

Lemma passed_arg_elem_of i rest evs e :
  Forall (passed_arg i rest) evs -> e ∈ evs -> passed_arg i rest e.
Proof. intros HF Hin. eapply Forall_forall in HF; eauto. Qed.

(** Membership in the events of a run of an event that is not a parse of
    an argument: it is one of the explicit events after the loop. *)
Ltac in_trace H Hevs0 :=
  first
    [ apply elem_of_app in H as [H|H];
      [ apply (passed_arg_elem_of _ _ _ _ Hevs0) in H as (? & ? & [=] & _)
      | repeat (apply elem_of_cons in H as [H|H]; [try discriminate H|]);
        try (apply elem_of_nil in H; contradiction) ]
    | apply (passed_arg_elem_of _ _ _ _ Hevs0) in H as (? & ? & [=] & _) ].

Ltac before_validate L :=
  match L with
  | ValidateReturn _ :: _ => constr:(@nil event)
  | ?e :: ?tl => let r := before_validate tl in constr:(e :: r)
  end.

Lemma spy_counts_app evs1 evs2 :
  spy_counts (evs1 ++ evs2) = spy_counts evs1 ++ spy_counts evs2.
Proof.
  induction evs1 as [|e evs1 IH]; [reflexivity|].
  destruct e; cbn; rewrite ?IH; reflexivity.
Qed.

Lemma spy_counts_passed i rest evs :
  Forall (passed_arg i rest) evs -> spy_counts evs = [].
Proof.
  induction 1 as [|e evs (pos & a & -> & _) _ IH]; [reflexivity|exact IH].
Qed.

Section Claims.

Variable JSON_parse : string -> option value.

#[local] Arguments argValidation : simpl never.
#[local] Arguments returnValidation : simpl never.
#[local] Arguments throwError : simpl never.

(** C10: a call validates the arguments it was given and nothing else.
    Every schema parse of the argument loop is at a position between 1 and
    the number of call arguments, on the argument passed there; and a
    validation error raised by the loop is the error of the schema at the
    index of a passed argument on that argument.  Schemas beyond the call
    arguments are never applied, so they cannot make the call fail. *)
Theorem only_passed_arguments_validated f callargs s out s' p sc o :
  builders s !! builder f = Some (Instance p sc) ->
  callables s !! builderOpts f = Some o ->
  invoke JSON_parse f callargs s = (out, s') ->
  (exists evs,
      log s' = log s ++ evs
      /\ forall pos a, ParseArg pos a ∈ evs ->
           1 <= pos <= length callargs /\ callargs !! (pos - 1) = Some a)
  /\ (forall e s1,
        for_args JSON_parse (builder f) (isAsync f) 0 callargs s = (Raise e, s1) ->
        exists k arg schema,
          k < length callargs /\ callargs !! k = Some arg
          /\ args sc !! k = Some schema
          /\ argValidation JSON_parse arg (k + 1) schema (isAsync f) = Raise e).
Proof.
  intros Hb Ho Hrun. split.
  - run_pipeline JSON_parse Hrun Hb Ho.
    all: eexists; split; [reflexivity|]; intros pos_ arg_ Hin.
    all: try (trace_cases Hin).
    all: try (apply (passed_arg_elem_of _ _ _ _ Hevs0) in Hin
                as (pos' & a' & [= <- <-] & Hpos & Hlook);
              rewrite Nat.sub_0_r in Hlook; split; [lia|exact Hlook]).
  - intros e s1 Hargs.
    destruct (for_args_raise JSON_parse _ _ _ _ _ _ _ _ _ Hb Hargs)
      as (k & arg & schema & Hk & Hsc & _ & Hval).
    exists k, arg, schema. repeat split; try done.
    eapply lookup_lt_Some, Hk.
Qed.


(** C2: in a callable made by [create], when the implementation throws
    synchronously and the error handler returns a promise, the call throws
    the error with message "onError handler function cannot return a promise
    in a synchronous context"; a rejection handler was attached to the
    handler's promise ([CatchIgnored]); nothing else ran: no return
    validation, no spy, and the options are unchanged. *)
Theorem sync_onError_promise_is_fatal f callargs s parsed s1 o err q :
  isAsync f = false ->
  callables s !! builderOpts f = Some o ->
  for_args JSON_parse (builder f) false 0 callargs s = (Ok parsed, s1) ->
  execFn o parsed = Throw err ->
  onErrorFn o err parsed = Return (Promise q) ->
  invoke JSON_parse f callargs s
  = (Raise (ZodFnError
       "onError handler function cannot return a promise in a synchronous context"),
     logged s1 [Exec parsed; OnError err parsed; CatchIgnored q]).
Proof.
  intros Hmode Ho Hargs Hexec Hhandler.
  unfold invoke. rewrite Hmode. unfold create_fn, bind at 1. rewrite Hargs.
  apply for_args_run in Hargs as (evs0 & -> & _).
  unfold bind, try_catch.
  erewrite call_execFn_run by exact Ho. rewrite Hexec. cbn [completed].
  erewrite call_onErrorFn_run by exact Ho. rewrite Hhandler. cbn [completed].
  rewrite emit_run. unfold raise. rewrite !logged_logged. reflexivity.
Qed.



(** Whenever the spy is invoked with [(a, r, c)], the event just before
    is the return validation of some value [raw], whose result is [r];
    before it there is no other validation of the result and no spy, after
    the spy only the discarding of a promise; and [raw] is what the error
    handler produced if it ran (it is then the last event before the
    validation), else what the implementation produced. *)
Lemma spy_preceded_by_validation f callargs s out s' p sc o :
  builders s !! builder f = Some (Instance p sc) ->
  callables s !! builderOpts f = Some o ->
  invoke JSON_parse f callargs s = (out, s') ->
  exists evs,
    log s' = log s ++ evs
    /\ forall a r c,
         Spy a r c ∈ evs ->
         exists pre raw post,
           evs = pre ++ ValidateReturn raw :: Spy a r c :: post
           /\ returnValidation JSON_parse raw (return_ sc) (isAsync f) = Ok r
           /\ Forall (fun e => is_ValidateReturn e = false /\ is_Spy e = false) pre
           /\ Forall (fun e => is_CatchIgnored e = true) post
           /\ ((exists err,
                  last pre = Some (OnError err a)
                  /\ (onErrorFn o err a = Return (Plain raw)
                      \/ onErrorFn o err a = Return (Promise (Fulfilled raw))))
               \/ (last pre = Some (Exec a)
                   /\ Forall (fun e => is_OnError e = false) pre
                   /\ (execFn o a = Return (Plain raw)
                       \/ execFn o a = Return (Promise (Fulfilled raw))))).
Proof.
  intros Hb Ho Hrun.
  run_pipeline JSON_parse Hrun Hb Ho.
  all: eexists; split; [reflexivity|].
  all: intros a_ r_ c_ Hin; in_trace Hin Hevs0; injection Hin as -> -> ->.
  all: match goal with
       | |- exists pre raw post, ?e0 ++ ?L = _ /\ _ =>
           let pre := before_validate L in
           exists (e0 ++ pre); eexists; eexists;
           split; [rewrite <- app_assoc; reflexivity|]
       end.
  all: split; [assumption|].
  all: split;
    [ apply Forall_app; split;
      [ eapply Forall_impl; [exact Hevs0|];
        intros ? (? & ? & -> & _); split; reflexivity
      | repeat constructor ] |].
  all: split; [repeat constructor|].
  all: rewrite last_app_cons; cbn [last].
  all: first
    [ left; eexists; split; [reflexivity|];
      first [left; assumption|right; assumption]
    | right; split; [reflexivity|]; split;
      [ apply Forall_app; split;
        [ eapply Forall_impl; [exact Hevs0|];
          intros ? (? & ? & -> & _); reflexivity
        | repeat constructor ]
      | first [left; assumption|right; assumption] ] ].
Qed.

(** Once the implementation has returned a value, or a promise fulfilled
    with it, return validation runs next on that value, and when it
    succeeds the spy runs next on its result. *)
Lemma validation_follows_implementation f callargs s out s' p sc o :
  builders s !! builder f = Some (Instance p sc) ->
  callables s !! builderOpts f = Some o ->
  invoke JSON_parse f callargs s = (out, s') ->
  exists evs,
    log s' = log s ++ evs
    /\ forall parsed s1 raw,
          for_args JSON_parse (builder f) (isAsync f) 0 callargs s
          = (Ok parsed, s1) ->
          execFn o parsed = Return (Plain raw)
          \/ execFn o parsed = Return (Promise (Fulfilled raw)) ->
          exists pre post,
            evs = pre ++ Exec parsed :: ValidateReturn raw :: post
            /\ Forall (fun e => is_ValidateReturn e = false /\ is_Spy e = false
                                /\ is_OnError e = false) pre
            /\ forall r,
                 returnValidation JSON_parse raw (return_ sc) (isAsync f) = Ok r ->
                 exists post',
                   post = Spy parsed r (S (spyFnCount o)) :: post'
                   /\ Forall (fun e => is_CatchIgnored e = true) post'.
Proof.
  intros Hb Ho Hrun.
  run_pipeline JSON_parse Hrun Hb Ho.
  all: eexists; split; [reflexivity|].
  all: intros parsed_ s1_ raw_ Hfa Hprod.
  all: try discriminate Hfa.
  all: injection Hfa as <- <-.
  all: destruct Hprod as [Hprod|Hprod]; try congruence.
  all: match goal with
       | E : execFn _ ?a = _, E' : execFn _ ?a = _ |- _ =>
           rewrite E in E'; try discriminate E'; injection E' as <-
       end.
  all: exists evs0; eexists; split; [reflexivity|].
  all: split;
    [ eapply Forall_impl; [exact Hevs0|];
      intros ? (? & ? & -> & _); repeat split |].
  all: intros r_ Hret; rewrite Eret in Hret; try discriminate Hret;
       injection Hret as <-.
  all: eexists; split; [reflexivity|repeat constructor].
Qed.

(** Once the error handler has recovered with a value, or, where the call
    can wait, with a promise fulfilled with it, return validation runs next
    on that value, and when it succeeds the spy runs next on its result. *)
Lemma validation_follows_recovery f callargs s out s' p sc o :
  builders s !! builder f = Some (Instance p sc) ->
  callables s !! builderOpts f = Some o ->
  invoke JSON_parse f callargs s = (out, s') ->
  exists evs,
    log s' = log s ++ evs
    /\ forall parsed s1 err raw,
          for_args JSON_parse (builder f) (isAsync f) 0 callargs s
          = (Ok parsed, s1) ->
          execFn o parsed = Throw err
          /\ (onErrorFn o err parsed = Return (Plain raw)
              \/ isAsync f = true
                 /\ onErrorFn o err parsed = Return (Promise (Fulfilled raw)))
          \/ execFn o parsed = Return (Promise (Rejected err))
             /\ (onErrorFn o err parsed = Return (Plain raw)
                 \/ onErrorFn o err parsed = Return (Promise (Fulfilled raw))) ->
          exists pre post,
            evs = pre ++ Exec parsed :: OnError err parsed
                      :: ValidateReturn raw :: post
            /\ Forall (fun e => is_ValidateReturn e = false /\ is_Spy e = false
                                /\ is_OnError e = false) pre
            /\ forall r,
                 returnValidation JSON_parse raw (return_ sc) (isAsync f) = Ok r ->
                 exists post',
                   post = Spy parsed r (S (spyFnCount o)) :: post'
                   /\ Forall (fun e => is_CatchIgnored e = true) post'.
Proof.
  intros Hb Ho Hrun.
  run_pipeline JSON_parse Hrun Hb Ho.
  all: eexists; split; [reflexivity|].
  all: intros parsed_ s1_ err_ raw_ Hfa Hprod.
  all: try discriminate Hfa.
  all: injection Hfa as <- <-.
  all: destruct Hprod as [[Hexec Hprod]|[Hexec Hprod]].
  all: match goal with
       | E : execFn _ ?a = _, E' : execFn _ ?a = _ |- _ =>
           rewrite E in E'; try discriminate E'; injection E' as <-
       end.
  all: destruct Hprod as [Hprod|Hprod];
       [|match type of Hprod with
         | _ /\ _ => destruct Hprod as [? Hprod]
         | _ => idtac
         end];
       try discriminate.
  all: match goal with
       | E : onErrorFn _ ?e ?a = _, E' : onErrorFn _ ?e ?a = _ |- _ =>
           rewrite E in E'; try discriminate E'; injection E' as <-
       end.
  all: exists evs0; eexists; split; [reflexivity|].
  all: split;
    [ eapply Forall_impl; [exact Hevs0|];
      intros ? (? & ? & -> & _); repeat split |].
  all: intros r_ Hret; rewrite Eret in Hret; try discriminate Hret;
       injection Hret as <-.
  all: eexists; split; [reflexivity|repeat constructor].
Qed.

(** C3: in every branch of the pipeline (a callable of [create] whose
    implementation returns or throws, one whose implementation returns a
    promise, and a callable of [createAsync]), return validation runs after
    any recovery by the error handler and before the spy.  (1) Whenever the
    spy is invoked with [(a, r, c)], the event just before is the return
    validation of some value [raw], whose result is [r]; before it there is
    no other validation of the result and no spy; and [raw] is what the
    error handler produced if it ran, else what the implementation
    produced.  (2) When the implementation returns [raw], or a promise
    fulfilled with [raw], the next event is the return validation of [raw],
    and if it succeeds with [r] the next event is the spy on [r].  (3) When
    the implementation throws or rejects and the error handler returns
    [raw], or a promise fulfilled with [raw] where the call can wait (after
    [createAsync], or after the implementation returned a promise), the
    event after the handler is the return validation of [raw], and if it
    succeeds with [r] the next event is the spy on [r]. *)
Theorem spy_sees_validated_result f callargs s out s' p sc o :
  builders s !! builder f = Some (Instance p sc) ->
  callables s !! builderOpts f = Some o ->
  invoke JSON_parse f callargs s = (out, s') ->
  exists evs,
    log s' = log s ++ evs
    /\ (forall a r c,
          Spy a r c ∈ evs ->
          exists pre raw post,
            evs = pre ++ ValidateReturn raw :: Spy a r c :: post
            /\ returnValidation JSON_parse raw (return_ sc) (isAsync f) = Ok r
            /\ Forall (fun e => is_ValidateReturn e = false /\ is_Spy e = false) pre
            /\ Forall (fun e => is_CatchIgnored e = true) post
            /\ ((exists err,
                   last pre = Some (OnError err a)
                   /\ (onErrorFn o err a = Return (Plain raw)
                       \/ onErrorFn o err a = Return (Promise (Fulfilled raw))))
                \/ (last pre = Some (Exec a)
                    /\ Forall (fun e => is_OnError e = false) pre
                    /\ (execFn o a = Return (Plain raw)
                        \/ execFn o a = Return (Promise (Fulfilled raw))))))
    /\ (forall parsed s1 raw,
          for_args JSON_parse (builder f) (isAsync f) 0 callargs s
          = (Ok parsed, s1) ->
          execFn o parsed = Return (Plain raw)
          \/ execFn o parsed = Return (Promise (Fulfilled raw)) ->
          exists pre post,
            evs = pre ++ Exec parsed :: ValidateReturn raw :: post
            /\ Forall (fun e => is_ValidateReturn e = false /\ is_Spy e = false
                                /\ is_OnError e = false) pre
            /\ forall r,
                 returnValidation JSON_parse raw (return_ sc) (isAsync f) = Ok r ->
                 exists post',
                   post = Spy parsed r (S (spyFnCount o)) :: post'
                   /\ Forall (fun e => is_CatchIgnored e = true) post')
    /\ (forall parsed s1 err raw,
          for_args JSON_parse (builder f) (isAsync f) 0 callargs s
          = (Ok parsed, s1) ->
          execFn o parsed = Throw err
          /\ (onErrorFn o err parsed = Return (Plain raw)
              \/ isAsync f = true
                 /\ onErrorFn o err parsed = Return (Promise (Fulfilled raw)))
          \/ execFn o parsed = Return (Promise (Rejected err))
             /\ (onErrorFn o err parsed = Return (Plain raw)
                 \/ onErrorFn o err parsed = Return (Promise (Fulfilled raw))) ->
          exists pre post,
            evs = pre ++ Exec parsed :: OnError err parsed
                      :: ValidateReturn raw :: post
            /\ Forall (fun e => is_ValidateReturn e = false /\ is_Spy e = false
                                /\ is_OnError e = false) pre
            /\ forall r,
                 returnValidation JSON_parse raw (return_ sc) (isAsync f) = Ok r ->
                 exists post',
                   post = Spy parsed r (S (spyFnCount o)) :: post'
                   /\ Forall (fun e => is_CatchIgnored e = true) post').
Proof.
  intros Hb Ho Hrun.
  destruct (spy_preceded_by_validation _ _ _ _ _ _ _ _ Hb Ho Hrun)
    as (evs & Hlog & Hspy).
  destruct (validation_follows_implementation _ _ _ _ _ _ _ _ Hb Ho Hrun)
    as (evs1 & Hlog1 & Himpl).
  destruct (validation_follows_recovery _ _ _ _ _ _ _ _ Hb Ho Hrun)
    as (evs2 & Hlog2 & Hrec).
  rewrite Hlog in Hlog1, Hlog2.
  apply app_inv_head in Hlog1 as <-. apply app_inv_head in Hlog2 as <-.
  exists evs. auto.
Qed.



(** Whenever the spy runs it receives the stored counter plus one, and the
    stored counter has been incremented; a call that succeeds ran the spy
    exactly once. *)
Lemma invoke_spy_stage f callargs s out s' p sc o :
  builders s !! builder f = Some (Instance p sc) ->
  callables s !! builderOpts f = Some o ->
  invoke JSON_parse f callargs s = (out, s') ->
  exists evs,
    log s' = log s ++ evs
    /\ builders s' = builders s
    /\ (forall a r c, Spy a r c ∈ evs ->
          c = S (spyFnCount o)
          /\ callables s' !! builderOpts f = Some (bump o))
    /\ (succeeded out = true ->
          spy_counts evs = [S (spyFnCount o)]
          /\ callables s' !! builderOpts f = Some (bump o)).
Proof.
  intros Hb Ho Hrun.
  assert (Hlt : builderOpts f < length (callables s))
    by (eapply lookup_lt_Some; exact Ho).
  run_pipeline JSON_parse Hrun Hb Ho.
  all: eexists; split; [reflexivity|]; split; [reflexivity|]; split.
  all: try (intros a_ r_ c_ Hin; in_trace Hin Hevs0; injection Hin as -> -> ->;
            (split; [reflexivity|]);
            cbn; apply list_lookup_insert_eq; exact Hlt).
  all: cbn [succeeded]; intros Hok; try discriminate Hok.
  all: rewrite spy_counts_app, (spy_counts_passed _ _ _ Hevs0); cbn.
  all: split; [reflexivity|apply list_lookup_insert_eq; exact Hlt].
Qed.

Lemma invoke_each_counts f calls : forall s outs s' p sc o,
  builders s !! builder f = Some (Instance p sc) ->
  callables s !! builderOpts f = Some o ->
  invoke_each JSON_parse f calls s = (outs, s') ->
  Forall (fun out => succeeded out = true) outs ->
  exists evs,
    log s' = log s ++ evs
    /\ spy_counts evs = seq (S (spyFnCount o)) (length calls).
Proof.
  induction calls as [|callargs calls IH]; intros s outs s' p sc o Hb Ho Hrun Hall.
  - cbn in Hrun. injection Hrun as <- <-. exists []. by rewrite app_nil_r.
  - cbn [invoke_each] in Hrun.
    destruct (invoke JSON_parse f callargs s) as [out s1] eqn:Hcall.
    destruct (invoke_each JSON_parse f calls s1) as [outs1 s2] eqn:Hrest.
    injection Hrun as <- <-.
    apply Forall_cons in Hall as [Hout Hall].
    destruct (invoke_spy_stage _ _ _ _ _ _ _ _ Hb Ho Hcall)
      as (evs1 & Hlog1 & Hb1 & _ & Hsucc).
    destruct (Hsucc Hout) as [Hcount Ho1].
    rewrite <- Hb1 in Hb.
    destruct (IH _ _ _ _ _ _ Hb Ho1 Hrest Hall) as (evs2 & Hlog2 & Hcount2).
    exists (evs1 ++ evs2). split.
    + rewrite Hlog2, Hlog1. by rewrite app_assoc.
    + rewrite spy_counts_app, Hcount, Hcount2. reflexivity.
Qed.

(** C8: [spy(fn)] with a function installs it and sets the counter to 0;
    [resetSpy()] installs the spy without effect and sets the counter to
    0; whenever a call runs the spy, the spy receives the stored counter
    plus one as its third argument and the stored counter has already been
    incremented, and a successful call runs the spy exactly once; hence
    after [spy(fn)], and after [resetSpy()] followed by [spy(fn)],
    successive successful calls pass 1, 2, 3, ... to the spy. *)
Theorem spy_counter f s p sc o g :
  builders s !! builder f = Some (Instance p sc) ->
  callables s !! builderOpts f = Some o ->
  let installed spyFn_ :=
    {| builders := builders s;
       callables := <[builderOpts f :=
                        {| execFn := execFn o; spyFn := spyFn_; spyFnCount := 0;
                           onErrorFn := onErrorFn o |}]> (callables s);
       log := log s |} in
  spy f (Fun g) s = (Ok f, installed g)
  /\ resetSpy f s = (Ok f, installed default_spyFn)
  /\ (forall a r c, default_spyFn a r c = Return (Plain VUndefined))
  /\ spy f (Fun g) (installed default_spyFn) = (Ok f, installed g)
  /\ (forall callargs out s',
        invoke JSON_parse f callargs s = (out, s') ->
        exists evs,
          log s' = log s ++ evs
          /\ (forall a r c, Spy a r c ∈ evs ->
                c = S (spyFnCount o)
                /\ callables s' !! builderOpts f = Some (bump o))
          /\ (succeeded out = true ->
                spy_counts evs = [S (spyFnCount o)]
                /\ callables s' !! builderOpts f = Some (bump o)))
  /\ (forall calls outs s',
        invoke_each JSON_parse f calls (installed g) = (outs, s') ->
        Forall (fun out => succeeded out = true) outs ->
        exists evs,
          log s' = log s ++ evs
          /\ spy_counts evs = seq 1 (length calls)).
Proof.
  intros Hb Ho installed.
  assert (Hlt : builderOpts f < length (callables s))
    by (eapply lookup_lt_Some; exact Ho).
  repeat split.
  - unfold spy, bind, options_at, write_options, ok. rewrite Ho. reflexivity.
  - unfold resetSpy, bind, options_at, write_options, ok. rewrite Ho. reflexivity.
  - unfold spy, bind, options_at, write_options, ok. cbn.
    rewrite list_lookup_insert_eq by exact Hlt. cbn.
    by rewrite list_insert_insert_eq.
  - intros callargs out s' Hrun.
    destruct (invoke_spy_stage _ _ _ _ _ _ _ _ Hb Ho Hrun)
      as (evs & Hlog & _ & Hspy & Hsucc).
    exists evs. auto.
  - intros calls outs s' Hrun Hall.
    refine (invoke_each_counts f calls (installed g) outs s' p sc
              (with_spy o g) Hb _ Hrun Hall).
    cbn. apply list_lookup_insert_eq. exact Hlt.
Qed.

End Claims.


(** ** The builder *)

Lemma check_schemas_pure i l s out s' :
  zfnBuilder.check_schemas i l s = (out, s') -> s' = s.
Proof.
  revert i. induction l as [|v l IH]; intros i H; cbn in H.
  - by injection H as <- <-.
  - destruct (negb (is_function (get_parseAsync v))
              && negb (is_function (get_parseAsync v))).
    + by injection H as <- <-.
    + eapply IH, H.
Qed.

Lemma check_schemas_ok i l s :
  Forall (fun v => is_schema v = true) l ->
  zfnBuilder.check_schemas i l s = (Ok tt, s).
Proof.
  intros H. revert i. induction H as [|v l Hv _ IH]; intros i; cbn.
  - reflexivity.
  - unfold is_schema in Hv. rewrite Hv. cbn. apply IH.
Qed.

Lemma check_schemas_fail i pre v post s :
  Forall (fun v => is_schema v = true) pre ->
  is_schema v = false ->
  zfnBuilder.check_schemas i (pre ++ v :: post) s
  = (Raise (ZodFnError (nat_to_string (i + length pre + 1)
                        ++ getOrdinalSuffix (i + length pre + 1)
                        ++ " argument must be a valid Zod schema")%string), s).
Proof.
  intros H Hv. revert i. induction H as [|w pre Hw _ IH]; intros i; cbn.
  - unfold is_schema in Hv. rewrite Hv. cbn. by rewrite Nat.add_0_r.
  - unfold is_schema in Hw. rewrite Hw. cbn. rewrite IH.
    by replace (S i + length pre + 1) with (i + S (length pre) + 1) by lia.
Qed.

(** [getBuilderInstance] returns its argument when it has [_schemas], and
    otherwise a new object, leaving every existing object as it is. *)
Lemma getBuilderInstance_run this s o :
  builders s !! this = Some o ->
  getBuilderInstance this s =
    if has_schemas o then (Ok this, s)
    else (Ok (length (builders s)),
          {| builders := builders s ++ [Instance this empty_schemas];
             callables := callables s; log := log s |}).
Proof.
  intros H. unfold getBuilderInstance, bind, builder_at. rewrite H.
  destruct o; reflexivity.
Qed.

Lemma getBuilderInstance_frame this s out s' b ob :
  builders s !! b = Some ob ->
  b <> this \/ ob = Root ->
  getBuilderInstance this s = (out, s') ->
  builders s' !! b = Some ob
  /\ forall builder, out = Ok builder ->
       b <> builder /\ exists p sc, builders s' !! builder = Some (Instance p sc).
Proof.
  intros Hb Hne Hrun.
  destruct (builders s !! this) as [o|] eqn:Hthis.
  - rewrite (getBuilderInstance_run _ _ _ Hthis) in Hrun.
    destruct o as [|p sc]; cbn in Hrun; injection Hrun as <- <-.
    + split; [cbn; by apply lookup_app_l_Some|].
      intros builder [= <-]. split.
      * apply lookup_lt_Some in Hb. lia.
      * exists this, empty_schemas. cbn. by rewrite list_lookup_middle.
    + split; [exact Hb|]. intros builder [= <-]. split; [|by eauto].
      destruct Hne as [Hne| ->]; [exact Hne|congruence].
  - unfold getBuilderInstance, bind, builder_at in Hrun. rewrite Hthis in Hrun.
    injection Hrun as <- <-. split; [exact Hb|]. intros ? [=].
Qed.

Lemma assign_args_frame builder l s out s' b ob :
  builders s !! b = Some ob -> b <> builder ->
  assign_args builder l s = (out, s') ->
  builders s' !! b = Some ob.
Proof.
  intros Hb Hne Hrun. unfold assign_args, bind, builder_at, write_builder in Hrun.
  destruct (builders s !! builder) as [[|p sc]|]; injection Hrun as <- <-;
    try exact Hb.
  cbn. rewrite list_lookup_insert_ne by congruence. exact Hb.
Qed.

Lemma assign_return_frame builder r s out s' b ob :
  builders s !! b = Some ob -> b <> builder ->
  assign_return builder r s = (out, s') ->
  builders s' !! b = Some ob.
Proof.
  intros Hb Hne Hrun. unfold assign_return, bind, builder_at, write_builder in Hrun.
  destruct (builders s !! builder) as [[|p sc]|]; injection Hrun as <- <-;
    try exact Hb.
  cbn. rewrite list_lookup_insert_ne by congruence. exact Hb.
Qed.

(** A method of the builder leaves an object as it is unless that object
    is the receiver and has [_schemas]. *)
Lemma args_frame this l s out s' b ob :
  builders s !! b = Some ob ->
  b <> this \/ ob = Root ->
  zfnBuilder.args this l s = (out, s') ->
  builders s' !! b = Some ob.
Proof.
  intros Hb Hne Hrun. unfold zfnBuilder.args, bind at 1 in Hrun.
  destruct (getBuilderInstance this s) as [o1 s1] eqn:Hget.
  destruct (getBuilderInstance_frame _ _ _ _ _ _ Hb Hne Hget) as [Hb1 Hfresh].
  destruct o1 as [builder| |]; try (by injection Hrun as <- <-).
  destruct (Hfresh builder eq_refl) as [Hneb _].
  destruct (Nat.eqb (length l) 0); [by injection Hrun as <- <-|].
  unfold bind at 1 in Hrun.
  destruct (zfnBuilder.check_schemas 0 l s1) as [o2 s2] eqn:Hcheck.
  apply check_schemas_pure in Hcheck as ->.
  destruct o2; try (by injection Hrun as <- <-).
  unfold bind in Hrun.
  destruct (assign_args builder l s1) as [o3 s3] eqn:Hassign.
  pose proof (assign_args_frame _ _ _ _ _ _ _ Hb1 Hneb Hassign) as Hb3.
  destruct o3; by injection Hrun as <- <-.
Qed.

Lemma returns_frame this r s out s' b ob :
  builders s !! b = Some ob ->
  b <> this \/ ob = Root ->
  zfnBuilder.returns this r s = (out, s') ->
  builders s' !! b = Some ob.
Proof.
  intros Hb Hne Hrun. unfold zfnBuilder.returns, bind at 1 in Hrun.
  destruct (getBuilderInstance this s) as [o1 s1] eqn:Hget.
  destruct (getBuilderInstance_frame _ _ _ _ _ _ Hb Hne Hget) as [Hb1 Hfresh].
  destruct o1 as [builder| |]; try (by injection Hrun as <- <-).
  destruct (Hfresh builder eq_refl) as [Hneb _].
  destruct (schema_is_undefined r); [by injection Hrun as <- <-|].
  destruct (negb (is_function (get_parseAsync r))
            && negb (is_function (get_parseAsync r)));
    [by injection Hrun as <- <-|].
  unfold bind in Hrun.
  destruct (assign_return builder r s1) as [o3 s3] eqn:Hassign.
  pose proof (assign_return_frame _ _ _ _ _ _ _ Hb1 Hneb Hassign) as Hb3.
  destruct o3; by injection Hrun as <- <-.
Qed.

Lemma build_returns_frame builder r s out s' b ob :
  builders s !! b = Some ob -> b <> builder ->
  ((if schema_truthy r
    then let! _ := zfnBuilder.returns builder r in ok tt
    else ok tt);; ok builder) s = (out, s') ->
  builders s' !! b = Some ob.
Proof.
  intros Hb Hne Hrun. unfold bind at 1 in Hrun.
  destruct (schema_truthy r).
  - unfold bind at 1 in Hrun.
    destruct (zfnBuilder.returns builder r s) as [o3 s3] eqn:Hret.
    pose proof (returns_frame _ _ _ _ _ _ _ Hb (or_introl Hne) Hret).
    destruct o3; by injection Hrun as <- <-.
  - by injection Hrun as <- <-.
Qed.

Lemma build_frame this g s out s' b ob :
  builders s !! b = Some ob ->
  b <> this \/ ob = Root ->
  zfnBuilder.build this g s = (out, s') ->
  builders s' !! b = Some ob.
Proof.
  intros Hb Hne Hrun. unfold zfnBuilder.build, bind at 1 in Hrun.
  destruct (getBuilderInstance this s) as [o1 s1] eqn:Hget.
  destruct (getBuilderInstance_frame _ _ _ _ _ _ Hb Hne Hget) as [Hb1 Hfresh].
  destruct o1 as [builder| |]; try (by injection Hrun as <- <-).
  destruct (Hfresh builder eq_refl) as [Hneb _].
  destruct g as [[]|g]; try (by injection Hrun as <- <-).
  destruct (g tt) as [result|e]; [|by injection Hrun as <- <-].
  destruct (not_an_object result); [by injection Hrun as <- <-|].
  unfold bind at 1 in Hrun.
  destruct (result_args result) as [[l|e]|].
  - unfold bind at 1 in Hrun.
    destruct (zfnBuilder.args builder l s1) as [o2 s2] eqn:Hargs.
    pose proof (args_frame _ _ _ _ _ _ _ Hb1 (or_introl Hneb) Hargs) as Hb2.
    destruct o2; try (by injection Hrun as <- <-).
    eapply build_returns_frame; [exact Hb2|exact Hneb|exact Hrun].
  - by injection Hrun as <- <-.
  - eapply build_returns_frame; [exact Hb1|exact Hneb|exact Hrun].
Qed.

Lemma getExecFn_builders fn mode builder s out s' :
  getExecFn fn mode builder s = (out, s') -> builders s' = builders s.
Proof. intros H. by injection H as <- <-. Qed.

Lemma create_frame this fn s out s' b ob :
  builders s !! b = Some ob ->
  b <> this \/ ob = Root ->
  zfnBuilder.create this fn s = (out, s') ->
  builders s' !! b = Some ob.
Proof.
  intros Hb Hne Hrun. unfold zfnBuilder.create in Hrun.
  destruct fn as [[]|fn]; try (by injection Hrun as <- <-).
  unfold bind in Hrun.
  destruct (getBuilderInstance this s) as [o1 s1] eqn:Hget.
  destruct (getBuilderInstance_frame _ _ _ _ _ _ Hb Hne Hget) as [Hb1 _].
  destruct o1; injection Hrun as <- <-; exact Hb1.
Qed.

Lemma createAsync_frame this fn s out s' b ob :
  builders s !! b = Some ob ->
  b <> this \/ ob = Root ->
  zfnBuilder.createAsync this fn s = (out, s') ->
  builders s' !! b = Some ob.
Proof.
  intros Hb Hne Hrun. unfold zfnBuilder.createAsync in Hrun.
  destruct fn as [[]|fn]; try (by injection Hrun as <- <-).
  unfold bind in Hrun.
  destruct (getBuilderInstance this s) as [o1 s1] eqn:Hget.
  destruct (getBuilderInstance_frame _ _ _ _ _ _ Hb Hne Hget) as [Hb1 _].
  destruct o1; injection Hrun as <- <-; exact Hb1.
Qed.

Lemma run_config_frame this c s b ob :
  builders s !! b = Some ob ->
  b <> this \/ ob = Root ->
  builders (run_config this c s) !! b = Some ob.
Proof.
  intros Hb Hne. destruct c as [l|r|g|fn|fn]; cbn [run_config].
  - destruct (zfnBuilder.args this l s) eqn:H. eapply args_frame; eauto.
  - destruct (zfnBuilder.returns this r s) eqn:H. eapply returns_frame; eauto.
  - destruct (zfnBuilder.build this g s) eqn:H. eapply build_frame; eauto.
  - destruct (zfnBuilder.create this fn s) eqn:H. eapply create_frame; eauto.
  - destruct (zfnBuilder.createAsync this fn s) eqn:H.
    eapply createAsync_frame; eauto.
Qed.

Lemma run_steps_root steps : forall s b,
  builders s !! b = Some Root ->
  builders (run_steps steps s) !! b = Some Root.
Proof.
  induction steps as [|[this c] steps IH]; intros s b Hb; [exact Hb|].
  cbn [run_steps]. apply IH. apply run_config_frame; auto.
Qed.

Lemma run_steps_frame steps : forall s b ob,
  builders s !! b = Some ob ->
  Forall (fun step => fst step <> b) steps ->
  builders (run_steps steps s) !! b = Some ob.
Proof.
  induction steps as [|[this c] steps IH]; intros s b ob Hb Hall; [exact Hb|].
  apply Forall_cons in Hall as [Hne Hall]. cbn in Hne.
  cbn [run_steps]. apply IH; [|exact Hall].
  apply run_config_frame; auto.
Qed.

Lemma bind_Ok {A B} (m : M A) (k : A -> M B) s b s' :
  bind m k s = (Ok b, s') ->
  exists a s1, m s = (Ok a, s1) /\ k a s1 = (Ok b, s').
Proof.
  unfold bind. destruct (m s) as [[a|e|] s1]; intros H; try discriminate.
  eauto.
Qed.

(** What a successful [args] or [returns] returns and writes: the builder
    given by [getBuilderInstance], with one member of its [_schemas]
    replaced. *)
Lemma args_Ok this l s b s' :
  zfnBuilder.args this l s = (Ok b, s') ->
  exists s1 p sc,
    getBuilderInstance this s = (Ok b, s1)
    /\ builders s1 !! b = Some (Instance p sc)
    /\ s' = {| builders := <[b := Instance p {| args := l; return_ := return_ sc |}]>
                             (builders s1);
               callables := callables s1; log := log s1 |}.
Proof.
  intros H. unfold zfnBuilder.args in H.
  apply bind_Ok in H as (builder & s1 & Hget & H).
  destruct (Nat.eqb (length l) 0); [discriminate|].
  apply bind_Ok in H as ([] & s2 & Hcheck & H).
  apply check_schemas_pure in Hcheck as ->.
  apply bind_Ok in H as ([] & s3 & Hassign & H).
  injection H as <- <-.
  unfold assign_args in Hassign.
  apply bind_Ok in Hassign as (o & s4 & Hat & Hassign).
  unfold builder_at in Hat.
  destruct (builders s1 !! builder) as [o'|] eqn:Hlook; [|discriminate].
  injection Hat as <- <-.
  destruct o' as [|p sc]; [discriminate|].
  injection Hassign as <-. eauto 6.
Qed.

Lemma returns_Ok this r s b s' :
  zfnBuilder.returns this r s = (Ok b, s') ->
  exists s1 p sc,
    getBuilderInstance this s = (Ok b, s1)
    /\ builders s1 !! b = Some (Instance p sc)
    /\ s' = {| builders := <[b := Instance p {| args := args sc; return_ := r |}]>
                             (builders s1);
               callables := callables s1; log := log s1 |}.
Proof.
  intros H. unfold zfnBuilder.returns in H.
  apply bind_Ok in H as (builder & s1 & Hget & H).
  destruct (schema_is_undefined r); [discriminate|].
  destruct (negb (is_function (get_parseAsync r))
            && negb (is_function (get_parseAsync r))); [discriminate|].
  apply bind_Ok in H as ([] & s3 & Hassign & H).
  injection H as <- <-.
  unfold assign_return in Hassign.
  apply bind_Ok in Hassign as (o & s4 & Hat & Hassign).
  unfold builder_at in Hat.
  destruct (builders s1 !! builder) as [o'|] eqn:Hlook; [|discriminate].
  injection Hat as <- <-.
  destruct o' as [|p sc]; [discriminate|].
  injection Hassign as <-. eauto 6.
Qed.

Lemma build_Ok this g s b s' :
  zfnBuilder.build this g s = (Ok b, s') ->
  exists s1, getBuilderInstance this s = (Ok b, s1).
Proof.
  intros H. unfold zfnBuilder.build in H.
  apply bind_Ok in H as (builder & s1 & Hget & H).
  destruct g as [[]|g]; try discriminate.
  destruct (g tt) as [result|e]; [|discriminate].
  destruct (not_an_object result); [discriminate|].
  apply bind_Ok in H as ([] & s2 & _ & H).
  apply bind_Ok in H as ([] & s3 & _ & H).
  injection H as <- <-. eauto.
Qed.

Lemma create_Ok this fn s f s' :
  zfnBuilder.create this fn s = (Ok f, s')
  \/ zfnBuilder.createAsync this fn s = (Ok f, s') ->
  exists s1,
    getBuilderInstance this s = (Ok (builder f), s1)
    /\ builders s' = builders s1.
Proof.
  intros [H|H]; unfold zfnBuilder.create, zfnBuilder.createAsync in H;
    (destruct fn as [[]|fn]; try discriminate);
    apply bind_Ok in H as (b & s1 & Hget & H);
    injection H as <- <-; eauto.
Qed.

(** C9: [zfnBuilder] is never written.  (1) After any sequence of builder
    calls, on any receivers, the object [zfn] is still the root without
    [_schemas].  (2) A call on a receiver without [_schemas] works on a new
    object: the object that [args], [returns] or [build] returns, or that
    the callable of [create] or [createAsync] captures, did not exist
    before the call and holds the schema record, so two chains from [zfn]
    work on different objects.  (3) Calls whose receiver is not [b] leave
    the object [b], hence its configuration, as it is. *)
Theorem root_builder_never_mutated s :
  builders s !! zfn = Some Root ->
  (forall steps, builders (run_steps steps s) !! zfn = Some Root)
  /\ (forall this, builders s !! this = Some Root ->
        builders s !! length (builders s) = None
        /\ (forall l b s', zfnBuilder.args this l s = (Ok b, s') ->
              b = length (builders s)
              /\ builders s' !! b
                 = Some (Instance this {| args := l; return_ := CData VUndefined |}))
        /\ (forall r b s', zfnBuilder.returns this r s = (Ok b, s') ->
              b = length (builders s)
              /\ builders s' !! b
                 = Some (Instance this {| args := []; return_ := r |}))
        /\ (forall g b s', zfnBuilder.build this g s = (Ok b, s') ->
              b = length (builders s))
        /\ (forall fn f s',
              zfnBuilder.create this fn s = (Ok f, s')
              \/ zfnBuilder.createAsync this fn s = (Ok f, s') ->
              builder f = length (builders s)
              /\ builders s' !! builder f = Some (Instance this empty_schemas)))
  /\ (forall steps b ob,
        builders s !! b = Some ob ->
        Forall (fun step => fst step <> b) steps ->
        builders (run_steps steps s) !! b = Some ob).
Proof.
  intros Hroot. split; [|split].
  - intros steps. by apply run_steps_root.
  - intros this Hthis.
    pose proof (getBuilderInstance_run _ _ _ Hthis) as Hget. cbn in Hget.
    split; [by apply lookup_ge_None_2|].
    split; [|split; [|split]].
    + intros l b s' H.
      apply args_Ok in H as (s1 & p & sc & Hget' & Hlook & ->).
      rewrite Hget in Hget'. injection Hget' as <- <-. split; [reflexivity|].
      cbn in *. rewrite list_lookup_middle in Hlook by reflexivity.
      injection Hlook as <- <-.
      rewrite list_lookup_insert_eq by (rewrite length_app; cbn; lia).
      reflexivity.
    + intros r b s' H.
      apply returns_Ok in H as (s1 & p & sc & Hget' & Hlook & ->).
      rewrite Hget in Hget'. injection Hget' as <- <-. split; [reflexivity|].
      cbn in *. rewrite list_lookup_middle in Hlook by reflexivity.
      injection Hlook as <- <-.
      rewrite list_lookup_insert_eq by (rewrite length_app; cbn; lia).
      reflexivity.
    + intros g b s' H. apply build_Ok in H as (s1 & Hget').
      rewrite Hget in Hget'. by injection Hget' as <- <-.
    + intros fn f s' H. apply create_Ok in H as (s1 & Hget' & Hsame).
      rewrite Hget in Hget'. injection Hget' as Hb <-. split; [done|].
      rewrite Hsame, <- Hb. cbn. by rewrite list_lookup_middle.
  - intros steps b ob. apply run_steps_frame.
Qed.

Lemma getBuilderInstance_Instance this s o :
  builders s !! this = Some o ->
  exists b s1 p sc,
    getBuilderInstance this s = (Ok b, s1)
    /\ builders s1 !! b = Some (Instance p sc)
    /\ b < length (builders s1)
    /\ forall b' ob, builders s !! b' = Some ob -> builders s1 !! b' = Some ob.
Proof.
  intros H. rewrite (getBuilderInstance_run _ _ _ H).
  destruct o as [|p sc]; cbn.
  - eexists _, _, this, empty_schemas. split; [reflexivity|]. cbn.
    split; [by rewrite list_lookup_middle|].
    split; [rewrite length_app; cbn; lia|].
    intros b' ob Hb'. by apply lookup_app_l_Some.
  - eexists _, _, p, sc. split; [reflexivity|].
    split; [exact H|]. split; [eapply lookup_lt_Some, H|]. auto.
Qed.

(** What [create] and [createAsync] return is a callable over a builder
    instance and over a new [options] record around the implementation:
    the two facts about a callable that the theorems on [invoke] assume. *)
Lemma create_materialized this fn s f s' o :
  builders s !! this = Some o ->
  zfnBuilder.create this fn s = (Ok f, s')
  \/ zfnBuilder.createAsync this fn s = (Ok f, s') ->
  (exists p sc, builders s' !! builder f = Some (Instance p sc))
  /\ callables s' !! builderOpts f
     = Some {| execFn := ogFn f; spyFn := default_spyFn; spyFnCount := 0;
               onErrorFn := default_onErrorFn |}.
Proof.
  intros Hthis H.
  destruct (getBuilderInstance_Instance _ _ _ Hthis)
    as (b & s1 & p & sc & Hget & Hb & _ & _).
  destruct H as [H|H]; unfold zfnBuilder.create, zfnBuilder.createAsync in H;
    (destruct fn as [[]|fn]; try discriminate);
    unfold bind in H; rewrite Hget in H; injection H as <- <-; cbn.
  all: split; [by eauto|]; by rewrite list_lookup_middle.
Qed.

(** C7: a value is accepted as a schema exactly when its [parseAsync]
    member is a function, whatever its [parse] member is.  [args] with a
    non-empty list of such values succeeds and stores the list; when the
    first value without a callable [parseAsync] is at index [length pre],
    [args] throws the error naming position [length pre + 1] and no existing
    builder is changed; [returns] succeeds and stores the schema on such a
    value, and otherwise throws "Return schema not provided" (for
    [undefined]) or "Return value must be a valid Zod schema". *)
Theorem schema_acceptance this s o :
  builders s !! this = Some o ->
  (forall v, is_schema v = true <-> exists parse pa, v = CObject parse (Fun pa))
  /\ (forall l,
        l <> [] -> Forall (fun v => is_schema v = true) l ->
        exists b s',
          zfnBuilder.args this l s = (Ok b, s')
          /\ exists p sc, builders s' !! b = Some (Instance p sc) /\ args sc = l)
  /\ (forall pre v post,
        Forall (fun v => is_schema v = true) pre -> is_schema v = false ->
        exists s',
          zfnBuilder.args this (pre ++ v :: post) s
          = (Raise (ZodFnError (nat_to_string (length pre + 1)
                                ++ getOrdinalSuffix (length pre + 1)
                                ++ " argument must be a valid Zod schema")%string),
             s')
          /\ forall b ob, builders s !! b = Some ob -> builders s' !! b = Some ob)
  /\ (forall v,
        is_schema v = true ->
        exists b s',
          zfnBuilder.returns this v s = (Ok b, s')
          /\ exists p sc, builders s' !! b = Some (Instance p sc) /\ return_ sc = v)
  /\ (forall v,
        is_schema v = false ->
        exists s',
          zfnBuilder.returns this v s
          = (Raise (ZodFnError (if schema_is_undefined v
                                then "Return schema not provided"
                                else "Return value must be a valid Zod schema")),
             s')
          /\ forall b ob, builders s !! b = Some ob -> builders s' !! b = Some ob).
Proof.
  intros Hthis.
  destruct (getBuilderInstance_Instance _ _ _ Hthis)
    as (b & s1 & p & sc & Hget & Hb & Hlt & Hframe).
  split; [|split; [|split; [|split]]].
  - intros v. split.
    + destruct v as [v|parse [v|pa]]; cbn; try discriminate; eauto.
    + intros (parse & pa & ->). reflexivity.
  - intros l Hne Hall. unfold zfnBuilder.args, bind at 1. rewrite Hget.
    destruct l as [|v l]; [done|]. cbn [length Nat.eqb].
    unfold bind at 1. rewrite check_schemas_ok by exact Hall.
    unfold assign_args, bind, builder_at, write_builder, ok. rewrite Hb.
    eexists _, _. split; [reflexivity|]. cbn.
    rewrite list_lookup_insert_eq by exact Hlt. eauto.
  - intros pre v post Hpre Hv. unfold zfnBuilder.args, bind at 1. rewrite Hget.
    replace (Nat.eqb (length (pre ++ v :: post)) 0) with false
      by (destruct pre; reflexivity).
    unfold bind at 1. rewrite (check_schemas_fail 0) by assumption.
    eexists. split; [reflexivity|exact Hframe].
  - intros v Hv. unfold zfnBuilder.returns, bind at 1. rewrite Hget.
    replace (schema_is_undefined v) with false
      by (destruct v as [[]|]; (reflexivity || discriminate)).
    unfold is_schema in Hv. rewrite Hv. cbn [negb andb].
    unfold assign_return, bind, builder_at, write_builder, ok. rewrite Hb.
    eexists _, _. split; [reflexivity|]. cbn.
    rewrite list_lookup_insert_eq by exact Hlt. eauto.
  - intros v Hv. unfold zfnBuilder.returns, bind at 1. rewrite Hget.
    destruct (schema_is_undefined v).
    + eexists. split; [reflexivity|exact Hframe].
    + unfold is_schema in Hv. rewrite Hv. cbn [negb andb].
      eexists. split; [reflexivity|exact Hframe].
Qed.


(** ** Builders that already have [_schemas] are written in place *)

(** On a receiver that has [_schemas], [args] and [returns] return the
    receiver itself after overwriting one member of its record. *)
Lemma args_on_instance this l s p sc b s' :
  builders s !! this = Some (Instance p sc) ->
  zfnBuilder.args this l s = (Ok b, s') ->
  b = this
  /\ builders s' !! this = Some (Instance p {| args := l; return_ := return_ sc |}).
Proof.
  intros Hthis H. apply args_Ok in H as (s1 & p' & sc' & Hget & Hlook & ->).
  rewrite (getBuilderInstance_run _ _ _ Hthis) in Hget. cbn in Hget.
  injection Hget as <- <-. rewrite Hthis in Hlook. injection Hlook as <- <-.
  split; [reflexivity|]. cbn.
  apply list_lookup_insert_eq. eapply lookup_lt_Some, Hthis.
Qed.

Lemma returns_on_instance this r s p sc b s' :
  builders s !! this = Some (Instance p sc) ->
  zfnBuilder.returns this r s = (Ok b, s') ->
  b = this
  /\ builders s' !! this = Some (Instance p {| args := args sc; return_ := r |}).
Proof.
  intros Hthis H. apply returns_Ok in H as (s1 & p' & sc' & Hget & Hlook & ->).
  rewrite (getBuilderInstance_run _ _ _ Hthis) in Hget. cbn in Hget.
  injection Hget as <- <-. rewrite Hthis in Hlook. injection Hlook as <- <-.
  split; [reflexivity|]. cbn.
  apply list_lookup_insert_eq. eapply lookup_lt_Some, Hthis.
Qed.

(** C5, on the code: with [b = zfn.args(z.number())], the calls
    [b.returns(z.any())] and then [b.args(z.any())] both return [b] itself,
    and the configuration read through [b] changes each time; no new
    builder object is made. *)
Theorem configuration_step_mutates_receiver :
  let s1 := Sample.exec Sample.b_setup initial in
  let s2 := Sample.exec (zfnBuilder.returns Sample.b Sample.any) s1 in
  let s3 := Sample.exec (zfnBuilder.args Sample.b [Sample.any]) s2 in
  Sample.eval Sample.b_setup initial = Ok Sample.b
  /\ builders s1 !! Sample.b
     = Some (Instance zfn {| args := [Sample.number]; return_ := CData VUndefined |})
  /\ Sample.eval (zfnBuilder.returns Sample.b Sample.any) s1 = Ok Sample.b
  /\ builders s2 !! Sample.b
     = Some (Instance zfn {| args := [Sample.number]; return_ := Sample.any |})
  /\ Sample.eval (zfnBuilder.args Sample.b [Sample.any]) s2 = Ok Sample.b
  /\ builders s3 !! Sample.b
     = Some (Instance zfn {| args := [Sample.any]; return_ := Sample.any |})
  /\ length (builders s3) = 2.
Proof. repeat split. Qed.

(** C4, on the code: with [b = zfn.args(z.number())] and
    [f = b.create((a) => a)], the call [f("x")] throws the validation error
    of the first argument; after [b.args(z.any())] the same call returns
    ["x"]; after [b.returns(z.number())] it throws the validation error of
    the return value.  The callable reads the configuration of [b] at every
    call. *)
Theorem create_reads_builder_at_call_time :
  let s2 := Sample.exec Sample.f_setup initial in
  let s3 := Sample.exec (zfnBuilder.args Sample.b [Sample.any]) s2 in
  let s4 := Sample.exec (zfnBuilder.returns Sample.b Sample.number) s3 in
  Sample.eval Sample.f_setup initial = Ok Sample.f
  /\ Sample.eval (invoke Sample.JSON_parse Sample.f [VString "x"]) s2
     = Raise (ZodFnError
         "Validation failed for 1st argument - Invalid input: expected number, received string")
  /\ Sample.eval (zfnBuilder.args Sample.b [Sample.any]) s2 = Ok Sample.b
  /\ Sample.eval (invoke Sample.JSON_parse Sample.f [VString "x"]) s3
     = Ok (Plain (VString "x"))
  /\ Sample.eval (zfnBuilder.returns Sample.b Sample.number) s3 = Ok Sample.b
  /\ Sample.eval (invoke Sample.JSON_parse Sample.f [VString "x"]) s4
     = Raise (ZodFnError
         "Validation failed for return value - Invalid input: expected number, received string").
Proof. repeat split. Qed.


(** ** The embedding on the test suite *)

Example adder_materialized :
  Sample.adder_setup initial = (Ok Sample.adder, Sample.adder_store).
Proof. reflexivity. Qed.

Example adder_returns_sum :
  Sample.eval (invoke Sample.JSON_parse Sample.adder [VNumber 5; VNumber 13])
    Sample.adder_store
  = Ok (Plain (VNumber 18)).
Proof. reflexivity. Qed.

Example adder_rejects_second_argument :
  Sample.eval (invoke Sample.JSON_parse Sample.adder [VNumber 5; VString "13"])
    Sample.adder_store
  = Raise (ZodFnError
      "Validation failed for 2nd argument - Invalid input: expected number, received string").
Proof. reflexivity. Qed.

Example async_adder_returns_promise :
  Sample.eval (invoke Sample.JSON_parse Sample.async_adder [VNumber 5; VNumber 13])
    (Sample.exec Sample.async_adder_setup initial)
  = Ok (Promise (Fulfilled (VNumber 18))).
Proof. reflexivity. Qed.

Example message_with_path :
  throwError Sample.JSON_parse (arg_label 1)
    (JsError "ZodError" Sample.expected_string_at_path)
  = ZodFnError
      "Validation failed for 1st argument - Path: c.d.e - Invalid input: expected string, received number".
Proof. reflexivity. Qed.

Example configuration_errors :
  Sample.eval (zfnBuilder.args zfn []) initial
    = Raise (ZodFnError "Argument schemas not provided")
  /\ Sample.eval (zfnBuilder.returns zfn (CData VUndefined)) initial
     = Raise (ZodFnError "Return schema not provided")
  /\ Sample.eval (zfnBuilder.args zfn [Sample.number; Sample.number; CData (VNumber 1)])
       initial
     = Raise (ZodFnError "3rd argument must be a valid Zod schema")
  /\ Sample.eval (zfnBuilder.build zfn (Fun (fun _ => inl (BuildValue (VNumber 1)))))
       initial
     = Raise (ZodFnError "Build function return value is not valid")
  /\ Sample.eval (zfnBuilder.create zfn (Data (VNumber 1))) initial
     = Raise (ZodFnError "Create argument must be a function").
Proof. repeat split. Qed.

Example ordinal_of_111 : getOrdinalSuffix 111 = "th".
Proof. reflexivity. Qed.


(** ** The theorems at the sample callables *)

Lemma validation_message_prefix_witness :
  call_parse Sample.number (VString "13")
    = inr (JsError "ZodError" Sample.expected_number)
  /\ (exists tail,
        argValidation Sample.JSON_parse (VString "13") 2 Sample.number false
        = Raise (ZodFnError ("Validation failed for 2nd argument" ++ tail)%string))
  /\ (exists tail,
        returnValidation Sample.JSON_parse (VString "13") Sample.number false
        = Raise (ZodFnError ("Validation failed for return value" ++ tail)%string)).
Proof.
  destruct (validation_message_prefix Sample.JSON_parse false Sample.number
              (VString "13") (JsError "ZodError" Sample.expected_number)
              (VObject [("path", VArray []);
                        ("message",
                         VString "Invalid input: expected number, received string")])
              [] [] eq_refl eq_refl eq_refl eq_refl) as (Harg & Hret & _).
  split; [reflexivity|]. split; [exact (Harg 2)|exact (Hret eq_refl)].
Defined.


Lemma sync_onError_promise_is_fatal_witness :
  isAsync Sample.thrower = false
  /\ callables Sample.thrower_store !! builderOpts Sample.thrower
     = Some {| execFn := Sample.failing; spyFn := default_spyFn;
               spyFnCount := 0; onErrorFn := Sample.async_handler |}
  /\ invoke Sample.JSON_parse Sample.thrower [] Sample.thrower_store
     = (Raise (ZodFnError
          "onError handler function cannot return a promise in a synchronous context"),
        logged Sample.thrower_store
          [Exec []; OnError (JsError "Error" "Error message") [];
           CatchIgnored (Fulfilled (VNumber 10))]).
Proof.
  split; [reflexivity|]. split; [reflexivity|].
  apply (sync_onError_promise_is_fatal Sample.JSON_parse Sample.thrower []
           Sample.thrower_store [] Sample.thrower_store
           {| execFn := Sample.failing; spyFn := default_spyFn; spyFnCount := 0;
              onErrorFn := Sample.async_handler |}
           (JsError "Error" "Error message") (Fulfilled (VNumber 10)));
    reflexivity.
Defined.

Lemma spy_sees_validated_result_witness :
  (let s := Sample.adder_store in
   let r := invoke Sample.JSON_parse Sample.adder [VNumber 5; VNumber 13] s in
   callables s !! builderOpts Sample.adder
     = Some {| execFn := Sample.add; spyFn := default_spyFn; spyFnCount := 0;
               onErrorFn := default_onErrorFn |}
   /\ fst r = Ok (Plain (VNumber 18))
   /\ exists pre post,
        log (snd r)
        = pre ++ Exec [VNumber 5; VNumber 13] :: ValidateReturn (VNumber 18)
              :: Spy [VNumber 5; VNumber 13] (VNumber 18) 1 :: post)
  /\ (let s := Scenario.recovering_store in
      let r := invoke Sample.JSON_parse Scenario.recovering [] s in
      Scenario.recovering_setup initial = (Ok Scenario.recovering, s)
      /\ fst r = Ok (Promise (Fulfilled (VNumber 10)))
      /\ exists pre post,
           log (snd r)
           = pre ++ Exec [] :: OnError (JsError "Error" "Error message") []
                 :: ValidateReturn (VNumber 10) :: Spy [] (VNumber 10) 1 :: post)
  /\ (let s := Scenario.async_recovering_store in
      let r := invoke Sample.JSON_parse Scenario.async_recovering [] s in
      Scenario.async_recovering_setup initial
        = (Ok Scenario.async_recovering, s)
      /\ fst r = Ok (Promise (Fulfilled (VNumber 10)))
      /\ exists pre post,
           log (snd r)
           = pre ++ Exec [] :: OnError (JsError "Error" "Error message") []
                 :: ValidateReturn (VNumber 10) :: Spy [] (VNumber 10) 1 :: post).
Proof.
  split; [|split].
  - intros s r. split; [reflexivity|]. split; [reflexivity|].
    destruct (spy_sees_validated_result Sample.JSON_parse Sample.adder
                [VNumber 5; VNumber 13] s (fst r) (snd r) zfn
                {| args := [Sample.number; Sample.number];
                   return_ := Sample.number |}
                {| execFn := Sample.add; spyFn := default_spyFn;
                   spyFnCount := 0; onErrorFn := default_onErrorFn |}
                eq_refl eq_refl eq_refl) as (evs & Hlog & _ & Himpl & _).
    destruct (Himpl [VNumber 5; VNumber 13]
                (snd (for_args Sample.JSON_parse 1 false 0
                        [VNumber 5; VNumber 13] s))
                (VNumber 18) eq_refl
                (or_introl eq_refl)) as (pre & post & Hevs & _ & Hspy).
    destruct (Hspy (VNumber 18) eq_refl) as (post' & Hpost & _).
    exists pre, post'. rewrite Hlog, Hevs, Hpost. reflexivity.
  - intros s r. split; [reflexivity|]. split; [reflexivity|].
    destruct (spy_sees_validated_result Sample.JSON_parse Scenario.recovering
                [] s (fst r) (snd r) zfn
                {| args := []; return_ := Sample.number |}
                {| execFn := Sample.rejecting; spyFn := default_spyFn;
                   spyFnCount := 0; onErrorFn := Sample.async_handler |}
                eq_refl eq_refl eq_refl) as (evs & Hlog & _ & _ & Hrec).
    destruct (Hrec [] s (JsError "Error" "Error message") (VNumber 10) eq_refl
                (or_intror (conj eq_refl (or_intror eq_refl))))
      as (pre & post & Hevs & _ & Hspy).
    destruct (Hspy (VNumber 10) eq_refl) as (post' & Hpost & _).
    exists pre, post'. rewrite Hlog, Hevs, Hpost. reflexivity.
  - intros s r. split; [reflexivity|]. split; [reflexivity|].
    destruct (spy_sees_validated_result Sample.JSON_parse
                Scenario.async_recovering
                [] s (fst r) (snd r) zfn
                {| args := []; return_ := Sample.number |}
                {| execFn := Sample.failing; spyFn := default_spyFn;
                   spyFnCount := 0; onErrorFn := Sample.handler |}
                eq_refl eq_refl eq_refl) as (evs & Hlog & _ & _ & Hrec).
    destruct (Hrec [] s (JsError "Error" "Error message") (VNumber 10) eq_refl
                (or_introl (conj eq_refl (or_introl eq_refl))))
      as (pre & post & Hevs & _ & Hspy).
    destruct (Hspy (VNumber 10) eq_refl) as (post' & Hpost & _).
    exists pre, post'. rewrite Hlog, Hevs, Hpost. reflexivity.
Defined.

Lemma schema_acceptance_witness :
  builders initial !! zfn = Some Root
  /\ is_schema Sample.async_only = true
  /\ (exists b s',
        zfnBuilder.args zfn [Sample.number; Sample.async_only] initial = (Ok b, s')
        /\ exists p sc,
             builders s' !! b = Some (Instance p sc)
             /\ args sc = [Sample.number; Sample.async_only])
  /\ (exists s',
        zfnBuilder.args zfn [Sample.number; CData (VNumber 1)] initial
        = (Raise (ZodFnError "2nd argument must be a valid Zod schema"), s')
        /\ forall b ob, builders initial !! b = Some ob -> builders s' !! b = Some ob).
Proof.
  destruct (schema_acceptance zfn initial Root eq_refl)
    as (Hiff & Hargs & Hbad & _ & _).
  split; [reflexivity|]. split; [reflexivity|]. split.
  - apply Hargs; [discriminate|]. repeat constructor.
  - apply (Hbad [Sample.number] (CData (VNumber 1)) []); [|reflexivity].
    repeat constructor.
Defined.

Lemma spy_counter_witness :
  let s := Sample.adder_store in
  let installed :=
    {| builders := builders s;
       callables := <[builderOpts Sample.adder :=
                        {| execFn := Sample.add; spyFn := Sample.observer;
                           spyFnCount := 0; onErrorFn := default_onErrorFn |}]>
                      (callables s);
       log := log s |} in
  let r := invoke_each Sample.JSON_parse Sample.adder
             [[VNumber 1; VNumber 2]; [VNumber 3; VNumber 4]; [VNumber 5; VNumber 6]]
             installed in
  spy Sample.adder (Fun Sample.observer) s = (Ok Sample.adder, installed)
  /\ fst r = [Ok (Plain (VNumber 3)); Ok (Plain (VNumber 7)); Ok (Plain (VNumber 11))]
  /\ exists evs, log (snd r) = log s ++ evs /\ spy_counts evs = [1; 2; 3].
Proof.
  intros s installed r.
  destruct (spy_counter Sample.JSON_parse Sample.adder s zfn
              {| args := [Sample.number; Sample.number]; return_ := Sample.number |}
              {| execFn := Sample.add; spyFn := default_spyFn; spyFnCount := 0;
                 onErrorFn := default_onErrorFn |}
              Sample.observer eq_refl eq_refl)
    as (Hspy & _ & _ & _ & _ & Hseq).
  split; [exact Hspy|]. split; [reflexivity|].
  apply (Hseq [[VNumber 1; VNumber 2]; [VNumber 3; VNumber 4];
                [VNumber 5; VNumber 6]] (fst r) (snd r) eq_refl).
  repeat constructor.
Defined.

Lemma root_builder_never_mutated_witness :
  builders initial !! zfn = Some Root
  /\ builders (run_steps [(zfn, Args [Sample.number]);
                          (1, Returns Sample.any);
                          (zfn, Create (Fun Sample.add));
                          (zfn, Build (Data VUndefined))] initial) !! zfn
     = Some Root
  /\ (forall l b s',
        zfnBuilder.args zfn l initial = (Ok b, s') ->
        b = 1
        /\ builders s' !! b
           = Some (Instance zfn {| args := l; return_ := CData VUndefined |})).
Proof.
  destruct (root_builder_never_mutated initial eq_refl) as (Hsteps & Hfresh & _).
  split; [reflexivity|]. split; [apply Hsteps|].
  destruct (Hfresh zfn eq_refl) as (_ & Hargs & _). exact Hargs.
Defined.

Lemma only_passed_arguments_validated_witness :
  let s := Sample.adder_store in
  let r := invoke Sample.JSON_parse Sample.adder [VNumber 5] s in
  builders s !! builder Sample.adder
    = Some (Instance zfn {| args := [Sample.number; Sample.number];
                            return_ := Sample.number |})
  /\ exists evs,
       log (snd r) = log s ++ evs
       /\ forall pos a, ParseArg pos a ∈ evs ->
            1 <= pos <= 1 /\ [VNumber 5] !! (pos - 1) = Some a.
Proof.
  intros s r. split; [reflexivity|].
  destruct (only_passed_arguments_validated Sample.JSON_parse Sample.adder
              [VNumber 5] s (fst r) (snd r) zfn
              {| args := [Sample.number; Sample.number]; return_ := Sample.number |}
              {| execFn := Sample.add; spyFn := default_spyFn; spyFnCount := 0;
                 onErrorFn := default_onErrorFn |}
              eq_refl eq_refl eq_refl) as [Hevs _].
  exact Hevs.
Defined.


(** * Further properties *)

(** ** What [replace] does to a message *)

Lemma starts_with_app pat (a b : string) :
  starts_with pat a = true -> starts_with pat (a ++ b)%string = true.
Proof.
  revert a. induction pat as [|c pat IH]; intros a H; [reflexivity|].
  destruct a as [|d a]; [discriminate|]. cbn in *.
  apply andb_prop in H as [Hc Ha]. rewrite Hc. cbn. by apply IH.
Qed.

Lemma starts_with_split pat s :
  starts_with pat s = true ->
  s = (pat ++ drop_chars (String.length pat) s)%string.
Proof.
  revert s. induction pat as [|c pat IH]; intros s H; [reflexivity|].
  destruct s as [|d s]; [discriminate|]. cbn in *.
  apply andb_prop in H as [Hc Hs]. apply Ascii.eqb_eq in Hc as ->.
  f_equal. by apply IH.
Qed.

Lemma replace_absent pat rep s :
  occurs pat s = false -> replace pat rep s = s.
Proof.
  induction s as [|c s IH]; cbn [occurs replace]; intros H;
    apply orb_false_elim in H as [Hs Hr]; rewrite Hs; [reflexivity|].
  f_equal. by apply IH.
Qed.

Lemma replace_present pat rep s :
  occurs pat s = true ->
  exists p t,
    s = (p ++ pat ++ t)%string
    /\ (pat <> EmptyString -> occurs pat p = false)
    /\ replace pat rep s = (p ++ rep ++ t)%string.
Proof.
  induction s as [|c s IH]; cbn [occurs replace]; intros H.
  - rewrite orb_false_r in H. rewrite H.
    exists EmptyString, (drop_chars (String.length pat) EmptyString).
    split; [by apply starts_with_split|]. split; [|reflexivity].
    intros Hne. destruct pat; [done|reflexivity].
  - destruct (starts_with pat (String c s)) eqn:Hs.
    + exists EmptyString, (drop_chars (String.length pat) (String c s)).
      split; [by apply starts_with_split|]. split; [|reflexivity].
      intros Hne. destruct pat; [done|reflexivity].
    + cbn in H. destruct (IH H) as (p & t & -> & Hp & Hrep).
      exists (String c p), t. split; [reflexivity|]. split.
      * intros Hne. cbn [occurs]. rewrite (Hp Hne), orb_false_r.
        destruct (starts_with pat (String c p)) eqn:Hsp; [|reflexivity].
        apply (starts_with_app _ _ (pat ++ t)%string) in Hsp.
        cbn in Hsp. cbn in Hs. congruence.
      * cbn. by rewrite Hrep.
Qed.

(** X2: an error whose message is not JSON, or is JSON but not a list
    with a first issue that has a message and a path, is rethrown as a
    [ZodFnError] with the same message, whatever was being validated,
    except that the first occurrence of [parseAsync()], if there is one, is
    replaced by [createAsync()]. *)
Theorem raw_message_forwarded JSON_parse label error :
  match JSON_parse (message error) with
  | None => True
  | Some json => is_issue_list json = false
  end ->
  exists m,
    throwError JSON_parse label error = ZodFnError m
    /\ (occurs "parseAsync()" (message error) = false -> m = message error)
    /\ (occurs "parseAsync()" (message error) = true ->
        exists p t,
          message error = (p ++ "parseAsync()" ++ t)%string
          /\ occurs "parseAsync()" p = false
          /\ m = (p ++ "createAsync()" ++ t)%string).
Proof.
  intros Hraw.
  exists (replace "parseAsync()" "createAsync()" (message error)). split.
  - unfold throwError. destruct (JSON_parse (message error)) as [json|];
      [|reflexivity].
    unfold is_issue_list in Hraw. by rewrite Hraw.
  - split.
    + apply replace_absent.
    + intros H. destruct (replace_present _ "createAsync()" _ H)
        as (p & t & Hs & Hp & Hrep).
      exists p, t. split; [exact Hs|]. split; [by apply Hp|exact Hrep].
Qed.

Lemma raw_message_forwarded_witness :
  Sample.JSON_parse (message Scenario.escalation) = None
  /\ occurs "parseAsync()" (message Scenario.escalation) = true
  /\ exists p t,
       message Scenario.escalation = (p ++ "parseAsync()" ++ t)%string
       /\ throwError Sample.JSON_parse return_label Scenario.escalation
          = ZodFnError (p ++ "createAsync()" ++ t)%string.
Proof.
  split; [reflexivity|]. split; [reflexivity|].
  destruct (raw_message_forwarded Sample.JSON_parse return_label
              Scenario.escalation I) as (m & -> & _ & Hocc).
  destruct (Hocc eq_refl) as (p & t & Hmsg & _ & ->).
  exists p, t. split; [exact Hmsg|reflexivity].
Defined.

(** X1: when the schema's error carries a JSON issue list whose first
    issue has a message and a path, the numbers printed in them are safe
    integers, and the text below contains no [parseAsync()], the error
    thrown is the [ZodFnError] with message
    [Validation failed for <label> - Path: <segments joined by .> - <message>],
    where the [Path] part is left out when the joined path is empty. *)
Theorem exact_structured_message JSON_parse label error first rest segments :
  JSON_parse (message error) = Some (VArray (first :: rest)) ->
  truthy (get "message" first) = true ->
  get "path" first = VArray segments ->
  safe_integers (get "message" first) = true ->
  safe_integers (VArray segments) = true ->
  occurs "parseAsync()" (structured_message label segments (get "message" first))
  = false ->
  throwError JSON_parse label error
  = ZodFnError (structured_message label segments (get "message" first)).
Proof.
  intros Hjson Hmsg Hpath _ _ Hocc. unfold throwError.
  rewrite Hjson. cbn [isArray first_issue andb]. rewrite Hmsg, Hpath.
  cbn [truthy andb]. f_equal.
  unfold structured_message in *.
  destruct (join "." segments =? "")%string; cbn [negb];
    rewrite ?string_app_assoc; cbn [String.append] in *;
    by apply replace_absent.
Qed.

Lemma exact_structured_message_witness :
  Sample.JSON_parse (message (JsError "ZodError" Sample.expected_string_at_path))
    = Some Sample.expected_string_issues
  /\ throwError Sample.JSON_parse (arg_label 1)
       (JsError "ZodError" Sample.expected_string_at_path)
     = ZodFnError
         "Validation failed for 1st argument - Path: c.d.e - Invalid input: expected string, received number"
  /\ throwError Sample.JSON_parse return_label
       (JsError "ZodError" Sample.expected_number)
     = ZodFnError
         "Validation failed for return value - Invalid input: expected number, received string".
Proof.
  split; [reflexivity|]. split.
  - exact (exact_structured_message Sample.JSON_parse (arg_label 1)
             (JsError "ZodError" Sample.expected_string_at_path)
             _ [] [VString "c"; VString "d"; VString "e"]
             eq_refl eq_refl eq_refl eq_refl eq_refl eq_refl).
  - exact (exact_structured_message Sample.JSON_parse return_label
             (JsError "ZodError" Sample.expected_number)
             _ [] [] eq_refl eq_refl eq_refl eq_refl eq_refl eq_refl).
Defined.


(** ** Further properties of the pipeline *)

Lemma count_events_app p evs1 evs2 :
  count_events p (evs1 ++ evs2) = count_events p evs1 + count_events p evs2.
Proof. induction evs1 as [|e evs1 IH]; cbn; [reflexivity|]. rewrite IH. lia. Qed.

Lemma count_events_passed p i rest evs :
  (forall pos a, p (ParseArg pos a) = false) ->
  Forall (passed_arg i rest) evs -> count_events p evs = 0.
Proof.
  intros Hp. induction 1 as [|e evs (pos & a & -> & _) _ IH]; [reflexivity|].
  cbn. by rewrite Hp, IH.
Qed.

Section PipelineMore.

Variable JSON_parse : string -> option value.

#[local] Arguments argValidation : simpl never.
#[local] Arguments returnValidation : simpl never.
#[local] Arguments throwError : simpl never.

Lemma argValidation_sync_settles arg position schema :
  argValidation JSON_parse arg position schema false <> Hang.
Proof. unfold argValidation. by destruct (call_parse schema arg). Qed.

Lemma returnValidation_sync_settles arg schema :
  returnValidation JSON_parse arg schema false <> Hang.
Proof.
  unfold returnValidation. destruct (schema_is_undefined schema); [done|].
  by destruct (call_parse schema arg).
Qed.

(** The argument loop, unfolded once on an instance. *)
Lemma for_args_cons b mode i arg rest s p sc :
  builders s !! b = Some (Instance p sc) ->
  for_args JSON_parse b mode i (arg :: rest) s
  = match args sc !! i with
    | Some schema =>
        if schema_truthy schema then
          match argValidation JSON_parse arg (i + 1) schema mode with
          | Ok v =>
              match for_args JSON_parse b mode (S i) rest
                      (logged s [ParseArg (i + 1) arg]) with
              | (Ok vs, s') => (Ok (v :: vs), s')
              | (Raise e, s') => (Raise e, s')
              | (Hang, s') => (Hang, s')
              end
          | Raise e => (Raise e, logged s [ParseArg (i + 1) arg])
          | Hang => (Hang, logged s [ParseArg (i + 1) arg])
          end
        else
          match for_args JSON_parse b mode (S i) rest s with
          | (Ok vs, s') => (Ok (arg :: vs), s')
          | (Raise e, s') => (Raise e, s')
          | (Hang, s') => (Hang, s')
          end
    | None =>
        match for_args JSON_parse b mode (S i) rest s with
        | (Ok vs, s') => (Ok (arg :: vs), s')
        | (Raise e, s') => (Raise e, s')
        | (Hang, s') => (Hang, s')
        end
    end.
Proof.
  intros Hb. cbn [for_args]. unfold bind at 1.
  unfold read_schemas, builder_at, bind at 1. rewrite Hb. cbn.
  unfold bind at 1.
  destruct (args sc !! i) as [schema|]; [destruct (schema_truthy schema)|].
  - unfold bind at 1. rewrite emit_run. unfold lift.
    destruct (argValidation JSON_parse arg (i + 1) schema mode); reflexivity.
  - reflexivity.
  - reflexivity.
Qed.

Lemma for_args_sync_settles b i rest s s' :
  for_args JSON_parse b false i rest s <> (Hang, s').
Proof.
  revert i s. induction rest as [|arg rest IH]; intros i s; [discriminate|].
  destruct (builders s !! b) as [[|p sc]|] eqn:Hb.
  - cbn [for_args]. unfold bind at 1, read_schemas, builder_at, bind at 1.
    rewrite Hb. discriminate.
  - rewrite (for_args_cons _ _ _ _ _ _ _ _ Hb).
    destruct (args sc !! i) as [schema|]; [destruct (schema_truthy schema)|].
    + pose proof (argValidation_sync_settles arg (i + 1) schema) as Hv.
      destruct (argValidation JSON_parse arg (i + 1) schema false);
        try done.
      destruct (for_args JSON_parse b false (S i) rest _) as [[] s2] eqn:E;
        try done. intros [= <-]. by apply IH in E.
    + destruct (for_args JSON_parse b false (S i) rest s) as [[] s2] eqn:E;
        try done. intros [= <-]. by apply IH in E.
    + destruct (for_args JSON_parse b false (S i) rest s) as [[] s2] eqn:E;
        try done. intros [= <-]. by apply IH in E.
  - cbn [for_args]. unfold bind at 1, read_schemas, builder_at, bind at 1.
    rewrite Hb. discriminate.
Qed.

(** What the loop returns: one value for each call argument, the schema's
    output where a schema is configured and the argument itself elsewhere. *)
Lemma for_args_parsed b mode i rest s parsed s' p sc :
  builders s !! b = Some (Instance p sc) ->
  for_args JSON_parse b mode i rest s = (Ok parsed, s') ->
  length parsed = length rest
  /\ forall k arg v,
       rest !! k = Some arg -> parsed !! k = Some v ->
       parsed_as JSON_parse (args sc) mode (i + k) arg v.
Proof.
  revert i s parsed. induction rest as [|arg rest IH]; intros i s parsed Hb Hrun.
  - injection Hrun as <- <-. split; [reflexivity|]. intros k ? ? [=].
  - rewrite (for_args_cons _ _ _ _ _ _ _ _ Hb) in Hrun.
    assert (Htail : forall v0 s1 vs,
      builders s1 !! b = Some (Instance p sc) ->
      for_args JSON_parse b mode (S i) rest s1 = (Ok vs, s') ->
      parsed = v0 :: vs ->
      parsed_as JSON_parse (args sc) mode i arg v0 ->
      length parsed = length (arg :: rest)
      /\ forall k arg0 v,
           (arg :: rest) !! k = Some arg0 -> parsed !! k = Some v ->
           parsed_as JSON_parse (args sc) mode (i + k) arg0 v).
    { intros v0 s1 vs Hb1 Hrec -> Hv0.
      destruct (IH _ _ _ Hb1 Hrec) as [Hlen Hall].
      split; [cbn; by rewrite Hlen|].
      intros [|k] arg0 v; cbn.
      - intros [= <-] [= <-]. by rewrite Nat.add_0_r.
      - intros Hk Hv. replace (i + S k) with (S i + k) by lia. by eapply Hall. }
    unfold parsed_as in Htail at 1.
    destruct (args sc !! i) as [schema|]; [destruct (schema_truthy schema)|].
    + destruct (argValidation JSON_parse arg (i + 1) schema mode) as [v0| |] eqn:Ev;
        try discriminate.
      destruct (for_args JSON_parse b mode (S i) rest _) as [[vs| |] s2] eqn:E;
        try discriminate.
      injection Hrun as <- <-.
      refine (Htail v0 _ vs _ E eq_refl eq_refl). exact Hb.
    + destruct (for_args JSON_parse b mode (S i) rest s) as [[vs| |] s2] eqn:E;
        try discriminate.
      injection Hrun as <- <-.
      refine (Htail arg _ vs _ E eq_refl eq_refl). exact Hb.
    + destruct (for_args JSON_parse b mode (S i) rest s) as [[vs| |] s2] eqn:E;
        try discriminate.
      injection Hrun as <- <-.
      refine (Htail arg _ vs _ E eq_refl eq_refl). exact Hb.
Qed.


End PipelineMore.




Section ClaimsMore.

Variable JSON_parse : string -> option value.

#[local] Arguments argValidation : simpl never.
#[local] Arguments returnValidation : simpl never.
#[local] Arguments throwError : simpl never.

(** X3: the implementation is called with as many arguments as the call
    has, each one the output of the schema configured at its index, or the
    call argument itself where no schema is configured. *)
Theorem implementation_receives_parsed_arguments f callargs s out s' p sc o :
  builders s !! builder f = Some (Instance p sc) ->
  callables s !! builderOpts f = Some o ->
  invoke JSON_parse f callargs s = (out, s') ->
  exists evs,
    log s' = log s ++ evs
    /\ forall a,
         Exec a ∈ evs ->
         length a = length callargs
         /\ forall k arg v,
              callargs !! k = Some arg -> a !! k = Some v ->
              parsed_as JSON_parse (args sc) (isAsync f) k arg v.
Proof.
  intros Hb Ho Hrun.
  run_pipeline JSON_parse Hrun Hb Ho.
  all: eexists; split; [reflexivity|].
  all: intros a_ Hin; in_trace Hin Hevs0; injection Hin as ->.
  all: exact (for_args_parsed JSON_parse _ _ _ _ _ _ _ _ _ Hb Hargs).
Qed.


Lemma for_args_unconfigured b mode rest : forall i s p sc,
  builders s !! b = Some (Instance p sc) ->
  args sc = [] ->
  for_args JSON_parse b mode i rest s = (Ok rest, s).
Proof.
  induction rest as [|arg rest IH]; intros i s p sc Hb Hnone; [reflexivity|].
  rewrite (for_args_cons _ _ _ _ _ _ _ _ _ Hb), Hnone. cbn.
  by rewrite (IH _ _ _ _ Hb Hnone).
Qed.

(** X4: a callable made from a builder without any schema calls the
    implementation on the call arguments as they are, validates nothing,
    and returns the implementation's value as it is (as the resolution of
    a promise after [createAsync]), once the spy has run on it. *)
Theorem unconfigured_callable_is_transparent f callargs s p sc o v w :
  builders s !! builder f = Some (Instance p sc) ->
  callables s !! builderOpts f = Some o ->
  args sc = [] ->
  return_ sc = CData VUndefined ->
  execFn o callargs = Return (Plain v) ->
  spyFn o callargs v (S (spyFnCount o)) = Return (Plain w) ->
  invoke JSON_parse f callargs s
  = (if isAsync f then Ok (Promise (Fulfilled v)) else Ok (Plain v),
     spied s (builderOpts f) o
       [Exec callargs; ValidateReturn v; Spy callargs v (S (spyFnCount o))]).
Proof.
  intros Hb Ho Hargs Hret Hexec Hspy.
  unfold invoke, createAsync_fn, create_fn, async_.
  destruct (isAsync f); unfold bind at 1;
    rewrite (for_args_unconfigured _ _ _ _ _ _ _ Hb Hargs).
  - unfold finish_async, recover_async, bind, try_catch, settle.
    erewrite call_execFn_run by exact Ho. rewrite Hexec. cbn [completed].
    unfold ok at 1.
    erewrite validate_return_run by exact Hb.
    unfold returnValidation at 1. rewrite Hret. cbn [schema_is_undefined].
    erewrite call_spyFn_run by exact Ho. rewrite Hspy. cbn [completed].
    unfold ok. by rewrite ?logged_logged, ?spied_logged.
  - unfold bind, try_catch.
    erewrite call_execFn_run by exact Ho. rewrite Hexec. cbn [completed].
    unfold ok at 1.
    erewrite validate_return_run by exact Hb.
    unfold returnValidation at 1. rewrite Hret. cbn [schema_is_undefined].
    erewrite call_spyFn_run by exact Ho. rewrite Hspy. cbn [completed].
    unfold ok. by rewrite ?logged_logged, ?spied_logged.
Qed.

(** X6: in a callable of [create] whose implementation returned a plain
    value that passed return validation, a spy that returns a promise makes
    the call throw "Spy handler function cannot return a promise in a
    synchronous context"; the spy has run and the counter is incremented,
    and a rejection handler was attached to the spy's promise. *)
Theorem sync_spy_promise_is_fatal f callargs s p sc parsed s1 o v r q :
  isAsync f = false ->
  builders s !! builder f = Some (Instance p sc) ->
  callables s !! builderOpts f = Some o ->
  for_args JSON_parse (builder f) false 0 callargs s = (Ok parsed, s1) ->
  execFn o parsed = Return (Plain v) ->
  returnValidation JSON_parse v (return_ sc) false = Ok r ->
  spyFn o parsed r (S (spyFnCount o)) = Return (Promise q) ->
  invoke JSON_parse f callargs s
  = (Raise (ZodFnError
       "Spy handler function cannot return a promise in a synchronous context"),
     spied s1 (builderOpts f) o
       [Exec parsed; ValidateReturn v; Spy parsed r (S (spyFnCount o));
        CatchIgnored q]).
Proof.
  intros Hmode Hb Ho Hargs Hexec Hret Hspy.
  unfold invoke. rewrite Hmode. unfold create_fn, bind at 1. rewrite Hargs.
  apply for_args_run in Hargs as (evs0 & -> & _).
  unfold bind, try_catch.
  erewrite call_execFn_run by exact Ho. rewrite Hexec. cbn [completed].
  unfold ok at 1.
  erewrite validate_return_run by exact Hb. rewrite Hret.
  erewrite call_spyFn_run by exact Ho. rewrite Hspy. cbn [completed].
  rewrite emit_run. unfold raise.
  by rewrite !spied_logged, !logged_spied, <- !app_assoc.
Qed.


(** X7: a callable of [createAsync] always returns a promise and never
    throws; a callable of [create] never suspends, and returns a promise
    exactly when its arguments passed validation and the current
    implementation returned a promise: otherwise it returns a plain value
    or throws. *)
Theorem sync_async_contract f callargs s out s' p sc o :
  builders s !! builder f = Some (Instance p sc) ->
  callables s !! builderOpts f = Some o ->
  invoke JSON_parse f callargs s = (out, s') ->
  (isAsync f = true -> exists pr, out = Ok (Promise pr))
  /\ (isAsync f = false ->
        out <> Hang
        /\ ((exists pr, out = Ok (Promise pr))
            <-> exists parsed s1 q,
                  for_args JSON_parse (builder f) false 0 callargs s
                  = (Ok parsed, s1)
                  /\ execFn o parsed = Return (Promise q))).
Proof.
  intros Hb Ho Hrun.
  run_pipeline JSON_parse Hrun Hb Ho.
  all: split; [intros Hm; try discriminate Hm; eauto|].
  all: intros Hm; try discriminate Hm.
  all: try (exfalso; eapply for_args_sync_settles; exact Hargs).
  all: try (exfalso; eapply returnValidation_sync_settles; eassumption).
  all: split; [discriminate|].
  all: split;
    [ intros [pr Hpr]; try discriminate Hpr; eauto 6
    | intros (parsed_ & s_ & q_ & [= <- <-] & Hq); try congruence; eauto ].
Qed.

(** X8: when a call returns the value [v] (directly, or as the resolution
    of its promise), [v] is the output of return validation, and the last
    thing that ran is the spy, on the arguments given to the implementation
    and on [v]. *)
Theorem successful_call_returns_validated_value f callargs s out s' p sc o v :
  builders s !! builder f = Some (Instance p sc) ->
  callables s !! builderOpts f = Some o ->
  invoke JSON_parse f callargs s = (out, s') ->
  out = Ok (Plain v) \/ out = Ok (Promise (Fulfilled v)) ->
  exists pre parsed raw,
    log s' = log s ++ pre ++ [ValidateReturn raw;
                              Spy parsed v (S (spyFnCount o))]
    /\ Exec parsed ∈ pre
    /\ returnValidation JSON_parse raw (return_ sc) (isAsync f) = Ok v.
Proof.
  intros Hb Ho Hrun Hout.
  run_pipeline JSON_parse Hrun Hb Ho.
  all: destruct Hout as [Hout|Hout]; try discriminate Hout.
  all: injection Hout as ->.
  all: match goal with
       | |- exists pre parsed raw, log (spied _ _ _ (?e0 ++ ?L)) = _ /\ _ =>
           let pre := before_validate L in
           exists (e0 ++ pre); eexists; eexists;
           split; [cbn; rewrite <- app_assoc; reflexivity|]
       end.
  all: split; [|assumption].
  all: apply elem_of_app; right;
    repeat first [apply list_elem_of_here | apply list_elem_of_further].
Qed.


(** X10: a call changes no builder, and changes the options of no
    callable except the counter of its own, which it increments exactly
    when the spy runs; the implementation, the spy and the error handler
    installed are left as they are. *)
Theorem invoke_footprint f callargs s out s' p sc o :
  builders s !! builder f = Some (Instance p sc) ->
  callables s !! builderOpts f = Some o ->
  invoke JSON_parse f callargs s = (out, s') ->
  builders s' = builders s
  /\ exists evs,
       log s' = log s ++ evs
       /\ (count_events is_Spy evs = 0 /\ callables s' = callables s
           \/ count_events is_Spy evs = 1
              /\ callables s'
                 = <[builderOpts f :=
                       {| execFn := execFn o; spyFn := spyFn o;
                          spyFnCount := S (spyFnCount o);
                          onErrorFn := onErrorFn o |}]> (callables s)).
Proof.
  intros Hb Ho Hrun.
  run_pipeline JSON_parse Hrun Hb Ho.
  all: split; [reflexivity|]; eexists; split; [reflexivity|].
  all: rewrite ?count_events_app,
         ?(count_events_passed is_Spy _ _ _ (fun _ _ => eq_refl) Hevs0).
  all: first [left; split; reflexivity | right; split; reflexivity].
Qed.

End ClaimsMore.


(** ** The further pipeline theorems at the sample callables *)

Lemma implementation_receives_parsed_arguments_witness :
  let s := Sample.adder_store in
  let r := invoke Sample.JSON_parse Sample.adder
             [VNumber 5; VNumber 13; VString "extra"] s in
  builders s !! builder Sample.adder
    = Some (Instance zfn {| args := [Sample.number; Sample.number];
                            return_ := Sample.number |})
  /\ exists evs,
       log (snd r) = log s ++ evs
       /\ forall a,
            Exec a ∈ evs ->
            length a = 3
            /\ forall k arg v,
                 [VNumber 5; VNumber 13; VString "extra"] !! k = Some arg ->
                 a !! k = Some v ->
                 parsed_as Sample.JSON_parse [Sample.number; Sample.number]
                   false k arg v.
Proof.
  intros s r. split; [reflexivity|].
  exact (implementation_receives_parsed_arguments Sample.JSON_parse Sample.adder
           [VNumber 5; VNumber 13; VString "extra"] s (fst r) (snd r) zfn
           {| args := [Sample.number; Sample.number]; return_ := Sample.number |}
           {| execFn := Sample.add; spyFn := default_spyFn; spyFnCount := 0;
              onErrorFn := default_onErrorFn |}
           eq_refl eq_refl eq_refl).
Defined.

Lemma unconfigured_callable_is_transparent_witness :
  Scenario.identity_setup initial = (Ok Scenario.identity, Scenario.identity_store)
  /\ invoke Sample.JSON_parse Scenario.identity [VString "x"; VNull]
       Scenario.identity_store
     = (Ok (Plain (VString "x")),
        spied Scenario.identity_store 0
          {| execFn := Sample.first_arg; spyFn := default_spyFn; spyFnCount := 0;
             onErrorFn := default_onErrorFn |}
          [Exec [VString "x"; VNull]; ValidateReturn (VString "x");
           Spy [VString "x"; VNull] (VString "x") 1]).
Proof.
  split; [reflexivity|].
  exact (unconfigured_callable_is_transparent Sample.JSON_parse Scenario.identity
           [VString "x"; VNull] Scenario.identity_store zfn empty_schemas
           {| execFn := Sample.first_arg; spyFn := default_spyFn; spyFnCount := 0;
              onErrorFn := default_onErrorFn |}
           (VString "x") VUndefined
           eq_refl eq_refl eq_refl eq_refl eq_refl eq_refl).
Defined.

Lemma sync_spy_promise_is_fatal_witness :
  let s := Sample.exec (spy Scenario.identity (Fun Scenario.async_spy))
             Scenario.identity_store in
  let o := {| execFn := Sample.first_arg; spyFn := Scenario.async_spy;
              spyFnCount := 0; onErrorFn := default_onErrorFn |} in
  callables s !! builderOpts Scenario.identity = Some o
  /\ invoke Sample.JSON_parse Scenario.identity [VNumber 10] s
     = (Raise (ZodFnError
          "Spy handler function cannot return a promise in a synchronous context"),
        spied s 0 o
          [Exec [VNumber 10]; ValidateReturn (VNumber 10);
           Spy [VNumber 10] (VNumber 10) 1;
           CatchIgnored (Fulfilled VUndefined)]).
Proof.
  intros s o. split; [reflexivity|].
  exact (sync_spy_promise_is_fatal Sample.JSON_parse Scenario.identity
           [VNumber 10] s zfn empty_schemas [VNumber 10] s o
           (VNumber 10) (VNumber 10) (Fulfilled VUndefined)
           eq_refl eq_refl eq_refl eq_refl eq_refl eq_refl eq_refl).
Defined.

Lemma sync_async_contract_witness :
  let s := Sample.adder_store in
  let r := invoke Sample.JSON_parse Sample.adder [VNumber 5; VNumber 13] s in
  isAsync Sample.adder = false
  /\ fst r = Ok (Plain (VNumber 18))
  /\ fst r <> Hang.
Proof.
  intros s r. split; [reflexivity|]. split; [reflexivity|].
  destruct (sync_async_contract Sample.JSON_parse Sample.adder
              [VNumber 5; VNumber 13] s (fst r) (snd r) zfn
              {| args := [Sample.number; Sample.number]; return_ := Sample.number |}
              {| execFn := Sample.add; spyFn := default_spyFn; spyFnCount := 0;
                 onErrorFn := default_onErrorFn |}
              eq_refl eq_refl eq_refl) as [_ Hsync].
  exact (proj1 (Hsync eq_refl)).
Defined.

Lemma successful_call_returns_validated_value_witness :
  let s := Sample.adder_store in
  let r := invoke Sample.JSON_parse Sample.adder [VNumber 5; VNumber 13] s in
  fst r = Ok (Plain (VNumber 18))
  /\ exists pre parsed raw,
       log (snd r) = log s ++ pre ++ [ValidateReturn raw; Spy parsed (VNumber 18) 1]
       /\ Exec parsed ∈ pre
       /\ returnValidation Sample.JSON_parse raw Sample.number false
          = Ok (VNumber 18).
Proof.
  intros s r. split; [reflexivity|].
  exact (successful_call_returns_validated_value Sample.JSON_parse Sample.adder
           [VNumber 5; VNumber 13] s (fst r) (snd r) zfn
           {| args := [Sample.number; Sample.number]; return_ := Sample.number |}
           {| execFn := Sample.add; spyFn := default_spyFn; spyFnCount := 0;
              onErrorFn := default_onErrorFn |}
           (VNumber 18) eq_refl eq_refl eq_refl (or_introl eq_refl)).
Defined.


Lemma invoke_footprint_witness :
  let s := Sample.adder_store in
  let ok := invoke Sample.JSON_parse Sample.adder [VNumber 5; VNumber 13] s in
  let ko := invoke Sample.JSON_parse Sample.adder [VNumber 5; VString "13"] s in
  builders (snd ok) = builders s
  /\ spyFnCount <$> callables (snd ok) !! 0 = Some 1
  /\ builders (snd ko) = builders s
  /\ callables (snd ko) = callables s.
Proof.
  intros s ok ko.
  destruct (invoke_footprint Sample.JSON_parse Sample.adder
              [VNumber 5; VNumber 13] s (fst ok) (snd ok) zfn
              {| args := [Sample.number; Sample.number]; return_ := Sample.number |}
              {| execFn := Sample.add; spyFn := default_spyFn; spyFnCount := 0;
                 onErrorFn := default_onErrorFn |}
              eq_refl eq_refl eq_refl) as (Hb1 & _).
  destruct (invoke_footprint Sample.JSON_parse Sample.adder
              [VNumber 5; VString "13"] s (fst ko) (snd ko) zfn
              {| args := [Sample.number; Sample.number]; return_ := Sample.number |}
              {| execFn := Sample.add; spyFn := default_spyFn; spyFnCount := 0;
                 onErrorFn := default_onErrorFn |}
              eq_refl eq_refl eq_refl) as (Hb2 & _).
  split; [exact Hb1|]. split; [reflexivity|]. split; [exact Hb2|reflexivity].
Defined.


(** ** Further properties of the instrumentation *)

Lemma store_eta s :
  {| builders := builders s; callables := callables s; log := log s |} = s.
Proof. by destruct s. Qed.

(** X11: [mock(fn)] replaces the implementation and nothing else (the spy,
    its counter and the error handler stay), a later [mock] replaces the
    earlier one, and [resetMock()] puts back the implementation given to
    [create]: on a callable that was not mocked before, [mock] followed by
    [resetMock] restores the store. *)
Theorem mock_resetMock f s o m m' :
  callables s !! builderOpts f = Some o ->
  let mocked fn :=
    {| builders := builders s;
       callables := <[builderOpts f :=
                        {| execFn := fn; spyFn := spyFn o;
                           spyFnCount := spyFnCount o;
                           onErrorFn := onErrorFn o |}]> (callables s);
       log := log s |} in
  mock f (Fun m) s = (Ok f, mocked m)
  /\ mock f (Fun m') (mocked m) = (Ok f, mocked m')
  /\ resetMock f (mocked m) = (Ok f, mocked (ogFn f))
  /\ (execFn o = ogFn f -> resetMock f (mocked m) = (Ok f, s)).
Proof.
  intros Ho mocked.
  assert (Hlt : builderOpts f < length (callables s))
    by (eapply lookup_lt_Some; exact Ho).
  assert (Hreset : resetMock f (mocked m) = (Ok f, mocked (ogFn f))).
  { unfold resetMock, bind, options_at, write_options, ok. cbn.
    rewrite list_lookup_insert_eq by exact Hlt. cbn.
    by rewrite list_insert_insert_eq. }
  repeat split.
  - unfold mock, bind, options_at, write_options, ok. by rewrite Ho.
  - unfold mock, bind, options_at, write_options, ok. cbn.
    rewrite list_lookup_insert_eq by exact Hlt. cbn.
    by rewrite list_insert_insert_eq.
  - exact Hreset.
  - intros Hog. rewrite Hreset. f_equal. unfold mocked. rewrite <- Hog.
    replace {| execFn := execFn o; spyFn := spyFn o;
               spyFnCount := spyFnCount o; onErrorFn := onErrorFn o |}
      with o by (by destruct o).
    rewrite list_insert_id by exact Ho. apply store_eta.
Qed.

(** X12: the three setters write different members of the options:
    [mock(a).spy(b).onError(c)] and [onError(c).spy(b).mock(a)] both leave
    the options with implementation [a], spy [b] with counter 0, and error
    handler [c], and both return the callable they were called on. *)
Theorem setters_compose f s o a b c :
  callables s !! builderOpts f = Some o ->
  let configured :=
    {| builders := builders s;
       callables := <[builderOpts f :=
                        {| execFn := a; spyFn := b; spyFnCount := 0;
                           onErrorFn := c |}]> (callables s);
       log := log s |} in
  (let! f1 := mock f (Fun a) in
   let! f2 := spy f1 (Fun b) in
   onError f2 (Fun c)) s = (Ok f, configured)
  /\ (let! f1 := onError f (Fun c) in
      let! f2 := spy f1 (Fun b) in
      mock f2 (Fun a)) s = (Ok f, configured).
Proof.
  intros Ho configured.
  assert (Hlt : builderOpts f < length (callables s))
    by (eapply lookup_lt_Some; exact Ho).
  split.
  - unfold mock, spy, onError, bind, options_at, write_options, ok.
    rewrite Ho. cbn.
    rewrite list_lookup_insert_eq by exact Hlt. cbn.
    rewrite list_insert_insert_eq.
    rewrite list_lookup_insert_eq by exact Hlt. cbn.
    by rewrite list_insert_insert_eq.
  - unfold mock, spy, onError, bind, options_at, write_options, ok.
    rewrite Ho. cbn.
    rewrite list_lookup_insert_eq by exact Hlt. cbn.
    rewrite list_insert_insert_eq.
    rewrite list_lookup_insert_eq by exact Hlt. cbn.
    by rewrite list_insert_insert_eq.
Qed.


Lemma run_mutator_frame f m s out s' :
  run_mutator f m s = (out, s') ->
  builders s' = builders s
  /\ log s' = log s
  /\ length (callables s') = length (callables s)
  /\ (forall o', o' <> builderOpts f -> callables s' !! o' = callables s !! o')
  /\ (forall f', out = Ok f' -> f' = f).
Proof.
  assert (Hwrite : forall r out s',
    (let! o := options_at (builderOpts f) in
     write_options (builderOpts f) (r o);; ok f) s = (out, s') ->
    builders s' = builders s
    /\ log s' = log s
    /\ length (callables s') = length (callables s)
    /\ (forall o', o' <> builderOpts f -> callables s' !! o' = callables s !! o')
    /\ (forall f', out = Ok f' -> f' = f)).
  { intros r out0 s0 H. unfold bind, options_at, write_options, ok in H.
    destruct (callables s !! builderOpts f); injection H as <- <-; cbn.
    - repeat split; [by rewrite length_insert| |by intros ? [= <-]].
      intros o' Hne. by rewrite list_lookup_insert_ne.
    - repeat split; intros ? [=]. }
  destruct m as [[v|fn]| |[v|fn]| |[v|fn]]; cbn [run_mutator]; intros H.
  1,4,7: (destruct v; injection H as <- <-; repeat split; intros ? [=]).
  - exact (Hwrite (fun o => with_execFn o fn) _ _ H).
  - exact (Hwrite (fun o => with_execFn o (ogFn f)) _ _ H).
  - exact (Hwrite (fun o => with_spy o fn) _ _ H).
  - exact (Hwrite (fun o => with_spy o default_spyFn) _ _ H).
  - exact (Hwrite (fun o => with_onErrorFn o fn) _ _ H).
Qed.

(** X14: every callable has options of its own.  [create] and
    [createAsync] put a new options record at the end of the store, around
    the function given, with the spy without effect, counter 0 and the
    rethrowing handler, and leave the existing records as they are; an
    instrumentation method of a callable returns that callable and changes
    no builder, no log and no options but those of its callable. *)
Theorem callables_have_own_options this fn f s s' :
  zfnBuilder.create this fn s = (Ok f, s')
  \/ zfnBuilder.createAsync this fn s = (Ok f, s') ->
  fn = Fun (ogFn f)
  /\ builderOpts f = length (callables s)
  /\ callables s'
     = callables s ++ [{| execFn := ogFn f; spyFn := default_spyFn;
                          spyFnCount := 0; onErrorFn := default_onErrorFn |}]
  /\ (forall g m out s2,
        builderOpts g <> builderOpts f ->
        run_mutator g m s' = (out, s2) ->
        callables s2 !! builderOpts f = callables s' !! builderOpts f
        /\ builders s2 = builders s')
  /\ (forall m out s2,
        run_mutator f m s' = (out, s2) ->
        (forall f', out = Ok f' -> f' = f)
        /\ builders s2 = builders s'
        /\ log s2 = log s'
        /\ forall o', o' <> builderOpts f ->
             callables s2 !! o' = callables s' !! o').
Proof.
  intros H.
  assert (Hcreate : fn = Fun (ogFn f)
                    /\ builderOpts f = length (callables s)
                    /\ callables s'
                       = callables s ++ [{| execFn := ogFn f;
                                            spyFn := default_spyFn;
                                            spyFnCount := 0;
                                            onErrorFn := default_onErrorFn |}]).
  { destruct H as [H|H]; unfold zfnBuilder.create, zfnBuilder.createAsync in H;
      (destruct fn as [[]|fn]; try discriminate);
      apply bind_Ok in H as (b & s1 & Hget & H);
      injection H as <- <-; cbn;
      unfold getBuilderInstance, bind, builder_at, new_builder, ok in Hget;
      (destruct (builders s !! this) as [[]|]; try discriminate);
      by injection Hget as <- <-. }
  destruct Hcreate as (Hfn & Hopts & Hcall).
  split; [exact Hfn|]. split; [exact Hopts|]. split; [exact Hcall|]. split.
  - intros g m out s2 Hne Hrun.
    destruct (run_mutator_frame _ _ _ _ _ Hrun) as (Hb & _ & _ & Hother & _).
    split; [|exact Hb]. apply Hother. congruence.
  - intros m out s2 Hrun.
    destruct (run_mutator_frame _ _ _ _ _ Hrun) as (Hb & Hl & _ & Hother & Hsame).
    auto.
Qed.


(** ** Further properties of the builder *)

Lemma getBuilderInstance_on_instance b s p sc :
  builders s !! b = Some (Instance p sc) ->
  getBuilderInstance b s = (Ok b, s).
Proof. intros H. by rewrite (getBuilderInstance_run _ _ _ H). Qed.

(** A method called on a receiver is the method called on the builder that
    [getBuilderInstance] gives for it. *)
Lemma args_via_instance this l s builder s1 p sc :
  getBuilderInstance this s = (Ok builder, s1) ->
  builders s1 !! builder = Some (Instance p sc) ->
  zfnBuilder.args this l s = zfnBuilder.args builder l s1.
Proof.
  intros Hget Hb. unfold zfnBuilder.args. unfold bind at 1. rewrite Hget.
  symmetry. unfold bind at 1.
  by rewrite (getBuilderInstance_on_instance _ _ _ _ Hb).
Qed.

Lemma returns_via_instance this r s builder s1 p sc :
  getBuilderInstance this s = (Ok builder, s1) ->
  builders s1 !! builder = Some (Instance p sc) ->
  zfnBuilder.returns this r s = zfnBuilder.returns builder r s1.
Proof.
  intros Hget Hb. unfold zfnBuilder.returns. unfold bind at 1. rewrite Hget.
  symmetry. unfold bind at 1.
  by rewrite (getBuilderInstance_on_instance _ _ _ _ Hb).
Qed.

Lemma args_run_instance this l s p sc :
  builders s !! this = Some (Instance p sc) ->
  l <> [] -> Forall (fun v => is_schema v = true) l ->
  zfnBuilder.args this l s
  = (Ok this,
     {| builders := <[this := Instance p {| args := l; return_ := return_ sc |}]>
                      (builders s);
        callables := callables s; log := log s |}).
Proof.
  intros Hthis Hne Hall. unfold zfnBuilder.args, bind at 1.
  rewrite (getBuilderInstance_on_instance _ _ _ _ Hthis).
  destruct l as [|v l]; [done|]. cbn [length Nat.eqb].
  unfold bind at 1. rewrite check_schemas_ok by exact Hall.
  unfold assign_args, bind, builder_at, write_builder, ok. by rewrite Hthis.
Qed.

Lemma returns_run_instance this r s p sc :
  builders s !! this = Some (Instance p sc) ->
  is_schema r = true ->
  zfnBuilder.returns this r s
  = (Ok this,
     {| builders := <[this := Instance p {| args := args sc; return_ := r |}]>
                      (builders s);
        callables := callables s; log := log s |}).
Proof.
  intros Hthis Hr. unfold zfnBuilder.returns, bind at 1.
  rewrite (getBuilderInstance_on_instance _ _ _ _ Hthis).
  replace (schema_is_undefined r) with false
    by (destruct r as [[]|]; (reflexivity || discriminate)).
  unfold is_schema in Hr. rewrite Hr. cbn [negb andb].
  unfold assign_return, bind, builder_at, write_builder, ok. by rewrite Hthis.
Qed.

(** X15: on a builder that has [_schemas], [args] replaces the whole list
    of argument schemas, without merging by position, and keeps the return
    schema; [returns] replaces the return schema and keeps the argument
    schemas; so after [args(l1)], [args(l2)] and [returns(r)] the
    configuration is [l2] with [r], whatever it was before. *)
Theorem reconfiguration_replaces this s p sc l1 l2 r :
  builders s !! this = Some (Instance p sc) ->
  l1 <> [] -> Forall (fun v => is_schema v = true) l1 ->
  l2 <> [] -> Forall (fun v => is_schema v = true) l2 ->
  is_schema r = true ->
  (exists s1,
      zfnBuilder.args this l1 s = (Ok this, s1)
      /\ builders s1 !! this
         = Some (Instance p {| args := l1; return_ := return_ sc |}))
  /\ (exists s1,
        zfnBuilder.returns this r s = (Ok this, s1)
        /\ builders s1 !! this
           = Some (Instance p {| args := args sc; return_ := r |}))
  /\ (exists s3,
        (let! b1 := zfnBuilder.args this l1 in
         let! b2 := zfnBuilder.args b1 l2 in
         zfnBuilder.returns b2 r) s = (Ok this, s3)
        /\ builders s3 !! this
           = Some (Instance p {| args := l2; return_ := r |})).
Proof.
  intros Hthis Hne1 Hall1 Hne2 Hall2 Hr.
  assert (Hlt : this < length (builders s)) by (eapply lookup_lt_Some, Hthis).
  split; [|split].
  - rewrite (args_run_instance _ _ _ _ _ Hthis Hne1 Hall1).
    eexists. split; [reflexivity|]. cbn. by apply list_lookup_insert_eq.
  - rewrite (returns_run_instance _ _ _ _ _ Hthis Hr).
    eexists. split; [reflexivity|]. cbn. by apply list_lookup_insert_eq.
  - unfold bind at 1.
    rewrite (args_run_instance _ _ _ _ _ Hthis Hne1 Hall1).
    unfold bind at 1.
    erewrite args_run_instance;
      [|cbn; by apply list_lookup_insert_eq|exact Hne2|exact Hall2].
    erewrite returns_run_instance;
      [|cbn; apply list_lookup_insert_eq; by rewrite length_insert|exact Hr].
    eexists. split; [reflexivity|]. cbn.
    apply list_lookup_insert_eq. by rewrite !length_insert.
Qed.

(** On a receiver that has [_schemas], [args] and [returns] return the
    receiver if anything, and leave it an instance. *)
Lemma args_result b l s out s' p sc :
  builders s !! b = Some (Instance p sc) ->
  zfnBuilder.args b l s = (out, s') ->
  (forall b', out = Ok b' -> b' = b)
  /\ exists sc', builders s' !! b = Some (Instance p sc').
Proof.
  intros Hb H. destruct out as [b'| |].
  - destruct (args_on_instance _ _ _ _ _ _ _ Hb H) as [-> Hb'].
    split; [by intros ? [= <-]|eauto].
  - split; [intros ? [=]|]. unfold zfnBuilder.args, bind at 1 in H.
    rewrite (getBuilderInstance_on_instance _ _ _ _ Hb) in H.
    destruct (Nat.eqb (length l) 0);
      [injection H as <- <-; exists sc; exact Hb|].
    unfold bind at 1 in H.
    destruct (zfnBuilder.check_schemas 0 l s) as [o2 s2] eqn:Hcheck.
    apply check_schemas_pure in Hcheck as ->.
    destruct o2; [|injection H as <- <-; exists sc; exact Hb|discriminate].
    unfold assign_args, bind, builder_at, write_builder, ok in H.
    rewrite Hb in H. discriminate.
  - split; [intros ? [=]|]. unfold zfnBuilder.args, bind at 1 in H.
    rewrite (getBuilderInstance_on_instance _ _ _ _ Hb) in H.
    destruct (Nat.eqb (length l) 0); [discriminate|].
    unfold bind at 1 in H.
    destruct (zfnBuilder.check_schemas 0 l s) as [o2 s2] eqn:Hcheck.
    apply check_schemas_pure in Hcheck as ->.
    destruct o2; [|discriminate|injection H as <-; exists sc; exact Hb].
    unfold assign_args, bind, builder_at, write_builder, ok in H.
    rewrite Hb in H. discriminate.
Qed.

Lemma returns_result b r s out s' p sc :
  builders s !! b = Some (Instance p sc) ->
  zfnBuilder.returns b r s = (out, s') ->
  forall b', out = Ok b' -> b' = b.
Proof.
  intros Hb H b' ->.
  by destruct (returns_on_instance _ _ _ _ _ _ _ Hb H) as [-> _].
Qed.

(** X16: [build] delegates to [args] and [returns]: when the configurator
    returns an object with an [args] array and a truthy [returns], the call
    is [args] followed by [returns] on the result, errors included; with
    [args] only it is [args], with [returns] only it is [returns], and with
    neither it returns the builder and leaves the configuration as it
    was. *)
Theorem build_delegates this s o g l r :
  builders s !! this = Some o ->
  schema_truthy r = true ->
  (g tt = inl (BuildConfig (Some l) r) ->
   zfnBuilder.build this (Fun g) s
   = (let! b := zfnBuilder.args this l in zfnBuilder.returns b r) s)
  /\ (g tt = inl (BuildConfig (Some l) (CData VUndefined)) ->
      zfnBuilder.build this (Fun g) s = zfnBuilder.args this l s)
  /\ (g tt = inl (BuildConfig None r) ->
      zfnBuilder.build this (Fun g) s = zfnBuilder.returns this r s)
  /\ (g tt = inl (BuildConfig None (CData VUndefined)) ->
      zfnBuilder.build this (Fun g) s = getBuilderInstance this s).
Proof.
  intros Hthis Hr.
  destruct (getBuilderInstance_Instance _ _ _ Hthis)
    as (b & s1 & p & sc & Hget & Hb & _ & _).
  assert (Hreturns : forall s2 sc2,
    builders s2 !! b = Some (Instance p sc2) ->
    ((let! _ := zfnBuilder.returns b r in ok tt);; ok b) s2
    = zfnBuilder.returns b r s2).
  { intros s2 sc2 Hb2. unfold bind at 1 2.
    destruct (zfnBuilder.returns b r s2) as [[b'| |] s3] eqn:E; try reflexivity.
    by rewrite (returns_result _ _ _ _ _ _ _ Hb2 E b' eq_refl). }
  split; [|split; [|split]]; intros Hg;
    unfold zfnBuilder.build, bind at 1; rewrite Hget, Hg; cbn [not_an_object];
    unfold bind at 1; cbn [result_args result_returns].
  - rewrite Hr. unfold bind at 4.
    rewrite (args_via_instance _ l _ _ _ _ _ Hget Hb). unfold bind at 1.
    destruct (zfnBuilder.args b l s1) as [[b'| |] s2] eqn:E; try reflexivity.
    destruct (args_result _ _ _ _ _ _ _ Hb E) as [Hsame [sc2 Hb2]].
    rewrite (Hsame b' eq_refl). unfold ok at 1.
    exact (Hreturns _ _ Hb2).
  - cbn [schema_truthy truthy].
    rewrite (args_via_instance _ l _ _ _ _ _ Hget Hb). unfold bind at 1.
    destruct (zfnBuilder.args b l s1) as [[b'| |] s2] eqn:E; try reflexivity.
    destruct (args_result _ _ _ _ _ _ _ Hb E) as [Hsame _].
    by rewrite (Hsame b' eq_refl).
  - rewrite Hr. unfold ok at 1.
    rewrite (returns_via_instance _ r _ _ _ _ _ Hget Hb).
    exact (Hreturns _ _ Hb).
  - reflexivity.
Qed.


(** ** The further theorems on instrumentation and builder at the samples *)

Lemma mock_resetMock_witness :
  let s := Sample.adder_store in
  let mocked := Sample.exec (mock Sample.adder (Fun Scenario.mul)) s in
  callables s !! builderOpts Sample.adder
    = Some {| execFn := Sample.add; spyFn := default_spyFn; spyFnCount := 0;
              onErrorFn := default_onErrorFn |}
  /\ Sample.eval (invoke Sample.JSON_parse Sample.adder [VNumber 5; VNumber 13])
       mocked
     = Ok (Plain (VNumber 65))
  /\ resetMock Sample.adder mocked = (Ok Sample.adder, s).
Proof.
  intros s mocked. split; [reflexivity|]. split; [reflexivity|].
  destruct (mock_resetMock Sample.adder s
              {| execFn := Sample.add; spyFn := default_spyFn; spyFnCount := 0;
                 onErrorFn := default_onErrorFn |}
              Scenario.mul Scenario.mul eq_refl) as (_ & _ & _ & Hround).
  exact (Hround eq_refl).
Defined.

Lemma setters_compose_witness :
  let s := Sample.adder_store in
  let configured :=
    {| builders := builders s;
       callables := <[0 := {| execFn := Scenario.mul; spyFn := Sample.observer;
                              spyFnCount := 0; onErrorFn := Sample.handler |}]>
                      (callables s);
       log := log s |} in
  (let! f1 := mock Sample.adder (Fun Scenario.mul) in
   let! f2 := spy f1 (Fun Sample.observer) in
   onError f2 (Fun Sample.handler)) s = (Ok Sample.adder, configured)
  /\ (let! f1 := onError Sample.adder (Fun Sample.handler) in
      let! f2 := spy f1 (Fun Sample.observer) in
      mock f2 (Fun Scenario.mul)) s = (Ok Sample.adder, configured).
Proof.
  exact (setters_compose Sample.adder Sample.adder_store
           {| execFn := Sample.add; spyFn := default_spyFn; spyFnCount := 0;
              onErrorFn := default_onErrorFn |}
           Scenario.mul Sample.observer Sample.handler eq_refl).
Defined.

Lemma callables_have_own_options_witness :
  let s := Sample.adder_store in
  let r := zfnBuilder.create Sample.b (Fun Scenario.mul) s in
  let f2 := {| isAsync := false; builder := 1; builderOpts := 1;
               ogFn := Scenario.mul |} in
  fst r = Ok f2
  /\ builderOpts f2 = length (callables s)
  /\ forall m out s2,
       run_mutator Sample.adder m (snd r) = (out, s2) ->
       callables s2 !! builderOpts f2 = callables (snd r) !! builderOpts f2
       /\ builders s2 = builders (snd r).
Proof.
  intros s r f2. split; [reflexivity|].
  destruct (callables_have_own_options Sample.b (Fun Scenario.mul) f2 s (snd r)
              (or_introl eq_refl)) as (_ & Hfresh & _ & Hother & _).
  split; [exact Hfresh|].
  intros m out s2. apply Hother. discriminate.
Defined.

Lemma reconfiguration_replaces_witness :
  let s := Sample.exec Sample.b_setup initial in
  builders s !! Sample.b
    = Some (Instance zfn {| args := [Sample.number]; return_ := CData VUndefined |})
  /\ exists s3,
       (let! b1 := zfnBuilder.args Sample.b [Sample.any; Sample.any; Sample.any] in
        let! b2 := zfnBuilder.args b1 [Sample.number] in
        zfnBuilder.returns b2 Sample.any) s = (Ok Sample.b, s3)
       /\ builders s3 !! Sample.b
          = Some (Instance zfn {| args := [Sample.number]; return_ := Sample.any |}).
Proof.
  intros s. split; [reflexivity|].
  destruct (reconfiguration_replaces Sample.b s zfn
              {| args := [Sample.number]; return_ := CData VUndefined |}
              [Sample.any; Sample.any; Sample.any] [Sample.number] Sample.any
              eq_refl) as (_ & _ & Hchain); try discriminate;
    try (repeat constructor).
  exact Hchain.
Defined.

Lemma build_delegates_witness :
  let g : build_fn :=
    fun _ => inl (BuildConfig (Some [Sample.number; Sample.number]) Sample.number) in
  builders initial !! zfn = Some Root
  /\ zfnBuilder.build zfn (Fun g) initial
     = (let! b := zfnBuilder.args zfn [Sample.number; Sample.number] in
        zfnBuilder.returns b Sample.number) initial.
Proof.
  intros g. split; [reflexivity|].
  destruct (build_delegates zfn initial Root g [Sample.number; Sample.number]
              Sample.number eq_refl eq_refl) as (Hboth & _).
  exact (Hboth eq_refl).
Defined.


(** ** Failures: the first invalid argument, a failing handler, a failing
    [build] *)

Section Failures.

Variable JSON_parse : string -> option value.

#[local] Arguments argValidation : simpl never.
#[local] Arguments returnValidation : simpl never.
#[local] Arguments throwError : simpl never.

Lemma for_args_first_raise b mode rest : forall i s e s' p sc,
  builders s !! b = Some (Instance p sc) ->
  for_args JSON_parse b mode i rest s = (Raise e, s') ->
  exists k arg schema,
    rest !! k = Some arg /\ args sc !! (i + k) = Some schema
    /\ schema_truthy schema = true
    /\ argValidation JSON_parse arg (i + k + 1) schema mode = Raise e
    /\ forall j argj,
         j < k -> rest !! j = Some argj ->
         exists v, parsed_as JSON_parse (args sc) mode (i + j) argj v.
Proof.
  induction rest as [|arg rest IH]; intros i s e s' p sc Hb Hrun; [discriminate|].
  rewrite (for_args_cons _ _ _ _ _ _ _ _ _ Hb) in Hrun.
  assert (Htail : forall v0 s1,
    builders s1 !! b = Some (Instance p sc) ->
    for_args JSON_parse b mode (S i) rest s1 = (Raise e, s') ->
    parsed_as JSON_parse (args sc) mode i arg v0 ->
    exists k arg0 schema,
      (arg :: rest) !! k = Some arg0 /\ args sc !! (i + k) = Some schema
      /\ schema_truthy schema = true
      /\ argValidation JSON_parse arg0 (i + k + 1) schema mode = Raise e
      /\ forall j argj,
           j < k -> (arg :: rest) !! j = Some argj ->
           exists v, parsed_as JSON_parse (args sc) mode (i + j) argj v).
  { intros v0 s1 Hb1 Hrec Hv0.
    destruct (IH _ _ _ _ _ _ Hb1 Hrec) as (k & a & sch & Hk & Hsch & Ht & Hval & Hbefore).
    exists (S k), a, sch. split; [exact Hk|].
    replace (i + S k) with (S i + k) by lia. repeat split; try done.
    intros [|j] argj Hj; cbn.
    - intros [= <-]. exists v0. by rewrite Nat.add_0_r.
    - intros Hargj. replace (i + S j) with (S i + j) by lia.
      apply Hbefore; [lia|exact Hargj]. }
  unfold parsed_as in Htail at 1.
  destruct (args sc !! i) as [schema|] eqn:Esc;
    [destruct (schema_truthy schema) eqn:Etruthy|].
  - destruct (argValidation JSON_parse arg (i + 1) schema mode) as [v0|e0|] eqn:Ev;
      try discriminate.
    + destruct (for_args JSON_parse b mode (S i) rest _) as [[vs|e1|] s2] eqn:E;
        try discriminate.
      injection Hrun as <- <-. refine (Htail v0 _ _ E eq_refl). exact Hb.
    + injection Hrun as <- <-. exists 0, arg, schema.
      rewrite !Nat.add_0_r. repeat split; try done. intros j ? Hj. lia.
  - destruct (for_args JSON_parse b mode (S i) rest s) as [[vs|e1|] s2] eqn:E;
      try discriminate.
    injection Hrun as <- <-. refine (Htail arg _ _ E eq_refl). exact Hb.
  - destruct (for_args JSON_parse b mode (S i) rest s) as [[vs|e1|] s2] eqn:E;
      try discriminate.
    injection Hrun as <- <-. refine (Htail arg _ _ E eq_refl). exact Hb.
Qed.

(** X17: when an argument fails validation, the error of the call is the
    validation error of the first such argument, in the order of the
    arguments: every argument before it was accepted; the implementation,
    the error handler, return validation and the spy are not invoked, and
    no options change. *)
Theorem first_invalid_argument_is_reported f callargs s out s' p sc o e s1 :
  builders s !! builder f = Some (Instance p sc) ->
  callables s !! builderOpts f = Some o ->
  invoke JSON_parse f callargs s = (out, s') ->
  for_args JSON_parse (builder f) (isAsync f) 0 callargs s = (Raise e, s1) ->
  out = (if isAsync f then Ok (Promise (Rejected e)) else Raise e)
  /\ callables s' = callables s
  /\ (exists evs,
        log s' = log s ++ evs /\ Forall (fun ev => is_ParseArg ev = true) evs)
  /\ exists k arg schema,
       callargs !! k = Some arg /\ args sc !! k = Some schema
       /\ argValidation JSON_parse arg (k + 1) schema (isAsync f) = Raise e
       /\ forall j argj,
            j < k -> callargs !! j = Some argj ->
            exists v, parsed_as JSON_parse (args sc) (isAsync f) j argj v.
Proof.
  intros Hb Ho Hrun Hfail.
  destruct (for_args_first_raise _ _ _ _ _ _ _ _ _ Hb Hfail)
    as (k & arg & schema & Hk & Hsc & _ & Hval & Hbefore).
  destruct (for_args_run _ _ _ _ _ _ _ _ Hfail) as (evs0 & -> & Hevs0).
  assert (Hout : (out, s')
                 = (if isAsync f then Ok (Promise (Rejected e)) else Raise e,
                    logged s evs0)).
  { rewrite <- Hrun. unfold invoke, createAsync_fn, create_fn, async_.
    destruct (isAsync f); unfold bind at 1; by rewrite Hfail. }
  injection Hout as -> ->.
  split; [reflexivity|]. split; [reflexivity|]. split.
  - exists evs0. split; [reflexivity|].
    eapply Forall_impl; [exact Hevs0|]. by intros ? (? & ? & -> & _).
  - exists k, arg, schema. auto.
Qed.

(** X5: when the implementation throws [err], or returns a promise
    rejected with [err], and the error handler throws [e2], the call fails
    with [e2] as it is: thrown by a callable of [create] whose
    implementation threw, and as the rejection of the returned promise
    otherwise; the handler is not invoked again, and return validation and
    the spy do not run.  The default handler throws the error it is given,
    so a callable without handler fails with the implementation's error
    unchanged. *)
Theorem handler_errors_propagate f callargs s parsed s1 o err e2 :
  callables s !! builderOpts f = Some o ->
  for_args JSON_parse (builder f) (isAsync f) 0 callargs s = (Ok parsed, s1) ->
  execFn o parsed = Throw err
  \/ execFn o parsed = Return (Promise (Rejected err)) ->
  onErrorFn o err parsed = Throw e2 ->
  invoke JSON_parse f callargs s
  = (match isAsync f, execFn o parsed with
     | false, Throw _ => Raise e2
     | _, _ => Ok (Promise (Rejected e2))
     end,
     logged s1 [Exec parsed; OnError err parsed])
  /\ (onErrorFn o = default_onErrorFn -> e2 = err).
Proof.
  intros Ho Hargs Hexec Hhandler. split.
  - unfold invoke, createAsync_fn, create_fn, async_.
    destruct (isAsync f); unfold bind at 1; rewrite Hargs;
      apply for_args_run in Hargs as (evs0 & -> & _);
      unfold finish_async, recover_async, bind, try_catch, async_, settle,
        await, lift;
      erewrite call_execFn_run by exact Ho;
      destruct Hexec as [Hexec|Hexec]; rewrite Hexec; cbn [completed awaited];
      erewrite call_onErrorFn_run by exact Ho;
      rewrite Hhandler; cbn [completed];
      by rewrite !logged_logged.
  - intros Hdefault. rewrite Hdefault in Hhandler. by injection Hhandler as <-.
Qed.

End Failures.

(** X18: [build] is not atomic: on a builder that has [_schemas], when the
    configurator returns valid [args] and a truthy [returns] that is not a
    schema, the call throws "Return value must be a valid Zod schema" after
    the argument schemas have been replaced; the return schema is the one
    from before. *)
Theorem build_writes_args_before_it_rejects_returns this s p sc g l r :
  builders s !! this = Some (Instance p sc) ->
  g tt = inl (BuildConfig (Some l) r) ->
  l <> [] -> Forall (fun v => is_schema v = true) l ->
  schema_truthy r = true -> is_schema r = false ->
  exists s',
    zfnBuilder.build this (Fun g) s
    = (Raise (ZodFnError "Return value must be a valid Zod schema"), s')
    /\ builders s' !! this
       = Some (Instance p {| args := l; return_ := return_ sc |}).
Proof.
  intros Hthis Hg Hne Hall Htruthy Hr.
  assert (Hlt : this < length (builders s)) by (eapply lookup_lt_Some, Hthis).
  unfold zfnBuilder.build, bind at 1.
  rewrite (getBuilderInstance_on_instance _ _ _ _ Hthis), Hg.
  cbn [not_an_object]. unfold bind at 1. cbn [result_args result_returns].
  unfold bind at 1. rewrite (args_run_instance _ _ _ _ _ Hthis Hne Hall).
  unfold ok at 1. rewrite Htruthy. unfold bind at 1 2.
  unfold zfnBuilder.returns, bind at 1.
  erewrite getBuilderInstance_on_instance
    by (cbn; by apply list_lookup_insert_eq).
  replace (schema_is_undefined r) with false
    by (destruct r as [[]|]; (reflexivity || discriminate)).
  unfold is_schema in Hr. rewrite Hr. cbn [negb andb]. unfold raise.
  eexists. split; [reflexivity|]. cbn. by apply list_lookup_insert_eq.
Qed.

Lemma first_invalid_argument_is_reported_witness :
  let s := Sample.adder_store in
  let r := invoke Sample.JSON_parse Sample.adder [VString "5"; VString "13"] s in
  let e := ZodFnError
    "Validation failed for 1st argument - Invalid input: expected number, received string" in
  for_args Sample.JSON_parse (builder Sample.adder) false 0
    [VString "5"; VString "13"] s = (Raise e, snd r)
  /\ fst r = Raise e
  /\ callables (snd r) = callables s.
Proof.
  intros s r e.
  destruct (first_invalid_argument_is_reported Sample.JSON_parse Sample.adder
              [VString "5"; VString "13"] s (fst r) (snd r) zfn
              {| args := [Sample.number; Sample.number]; return_ := Sample.number |}
              {| execFn := Sample.add; spyFn := default_spyFn; spyFnCount := 0;
                 onErrorFn := default_onErrorFn |}
              e (snd r) eq_refl eq_refl eq_refl eq_refl)
    as (Hout & Hcall & _).
  split; [reflexivity|]. split; [exact Hout|exact Hcall].
Defined.

Lemma handler_errors_propagate_witness :
  Scenario.failing_setup initial = (Ok Scenario.failing, Scenario.failing_store)
  /\ invoke Sample.JSON_parse Scenario.failing [] Scenario.failing_store
     = (Raise (JsError "Error" "Error message"),
        logged Scenario.failing_store
          [Exec []; OnError (JsError "Error" "Error message") []]).
Proof.
  split; [reflexivity|].
  exact (proj1 (handler_errors_propagate Sample.JSON_parse Scenario.failing []
           Scenario.failing_store [] Scenario.failing_store
           {| execFn := Sample.failing; spyFn := default_spyFn; spyFnCount := 0;
              onErrorFn := default_onErrorFn |}
           (JsError "Error" "Error message") (JsError "Error" "Error message")
           eq_refl eq_refl (or_introl eq_refl) eq_refl)).
Defined.

Lemma build_writes_args_before_it_rejects_returns_witness :
  let s := Sample.exec Sample.b_setup initial in
  let g : build_fn :=
    fun _ => inl (BuildConfig (Some [Sample.any; Sample.any])
                              (CData (VNumber 1))) in
  builders s !! Sample.b
    = Some (Instance zfn {| args := [Sample.number]; return_ := CData VUndefined |})
  /\ exists s',
       zfnBuilder.build Sample.b (Fun g) s
       = (Raise (ZodFnError "Return value must be a valid Zod schema"), s')
       /\ builders s' !! Sample.b
          = Some (Instance zfn {| args := [Sample.any; Sample.any];
                                  return_ := CData VUndefined |}).
Proof.
  intros s g. split; [reflexivity|].
  apply (build_writes_args_before_it_rejects_returns Sample.b s zfn
           {| args := [Sample.number]; return_ := CData VUndefined |}
           g [Sample.any; Sample.any] (CData (VNumber 1)) eq_refl eq_refl);
    try discriminate; try reflexivity. repeat constructor.
Defined.

